(** * The OpenCV image pipeline of ueberzugpp (src/image/opencv.cpp)

    A shallow embedding of [OpencvImage]: the constructor, [rotate_image],
    [resize_image], [resize_image_helper] and [process_image], together with
    the part of the image library they call.  Member functions are computations
    in a small state-and-trace monad over the object's fields; every call into
    the image library and every logger call is recorded, in program order, in
    the trace. *)

From Stdlib Require Import ZArith QArith Qround String List Bool Lia.
Import ListNotations.

Local Open Scope string_scope.
Local Open Scope list_scope.
Local Open Scope Z_scope.

(** ** The image library

    The operations of OpenCV that the pipeline calls, after the library's
    documentation.  The transforms are functions of the buffer.  One argument
    check of the library is within reach of the pipeline: [cv::resize]
    rejects a size with an axis that is not positive ([resize_accepts]), and
    the constructor raises where that check fails.  The colour conversions
    are called on channel counts they accept as long as the buffer has one,
    three or four channels; other channel counts are outside the model. *)

Module cv.

(** Sample depths.  The model covers images of 8-bit and of 16-bit unsigned
    samples.  The decoder can yield other depths (floating point, for one);
    the pipeline does not convert them and its premultiplication loop reads
    their memory as 8-bit samples ([cv::Vec4b]), which no list of samples
    describes.  Every statement about the depth of a buffer is a statement
    about images of these two depths. *)
Inductive Depth := CV_8U | CV_16U.

Definition Depth_eqb (a b : Depth) : bool :=
  match a, b with
  | CV_8U, CV_8U | CV_16U, CV_16U => true
  | _, _ => false
  end.

(** [Mat::elemSize1]: bytes of one sample. *)
Definition elemSize1_of (d : Depth) : Z :=
  match d with CV_8U => 1 | CV_16U => 2 end.

(** Largest sample value of a depth; the opaque alpha that the colour
    conversions insert. *)
Definition depth_max (d : Depth) : Z :=
  match d with CV_8U => 255 | CV_16U => 65535 end.

(** A pixel is the list of its samples, in storage order. *)
Definition Pixel := list Z.

(** [cv::Mat] (and [cv::UMat]): the type of the elements and the rows of
    pixels.  [rows] and [cols] are read off the data. *)
Record Mat := mkMat {
  depth : Depth;
  channels : Z;
  data : list (list Pixel)
}.

Definition rows (m : Mat) : Z := Z.of_nat (length (data m)).
Definition cols (m : Mat) : Z := Z.of_nat (length (hd [] (data m))).

(** [Mat::total], [Mat::elemSize], [Mat::empty]. *)
Definition total (m : Mat) : Z := rows m * cols m.
Definition elemSize (m : Mat) : Z := channels m * elemSize1_of (depth m).
Definition empty (m : Mat) : bool := total m =? 0.

Definition with_data (m : Mat) (d : list (list Pixel)) : Mat :=
  mkMat (depth m) (channels m) d.

(** Every pixel has [n] samples; every pixel has as many samples as the
    matrix has channels. *)
Definition pixels_of_size (n : Z) (d : list (list Pixel)) : Prop :=
  Forall (Forall (fun p : Pixel => Z.of_nat (length p) = n)) d.

Definition uniform (m : Mat) : Prop := pixels_of_size (channels m) (data m).

(** *** cv::flip and cv::rotate *)

Section Geometry.
Context {A : Type}.

(** [flipCode = 0] flips around the x axis (the rows are reversed), a
    positive code around the y axis (every row is reversed), a negative
    code around both. *)
Definition flip_rows (code : Z) (m : list (list A)) : list (list A) :=
  if code =? 0 then rev m
  else if 0 <? code then map (@rev A) m
  else rev (map (@rev A) m).

Fixpoint zip_cons (r : list A) (t : list (list A)) : list (list A) :=
  match r, t with
  | [], _ => []
  | x :: r', [] => [x] :: zip_cons r' []
  | x :: r', y :: t' => (x :: y) :: zip_cons r' t'
  end.

(** [cv::transpose]. *)
Fixpoint transpose (m : list (list A)) : list (list A) :=
  match m with
  | [] => []
  | r :: rs => zip_cons r (transpose rs)
  end.
End Geometry.

Inductive RotateFlags := ROTATE_90_CLOCKWISE | ROTATE_180 | ROTATE_90_COUNTERCLOCKWISE.

(** [cv::rotate] is a transpose followed by a flip (both flips for 180). *)
Definition rotate_rows {A} (f : RotateFlags) (m : list (list A)) : list (list A) :=
  match f with
  | ROTATE_90_CLOCKWISE => flip_rows 1 (transpose m)
  | ROTATE_180 => flip_rows (-1) m
  | ROTATE_90_COUNTERCLOCKWISE => flip_rows 0 (transpose m)
  end.

Definition flip (m : Mat) (code : Z) : Mat := with_data m (flip_rows code (data m)).
Definition rotate (m : Mat) (f : RotateFlags) : Mat := with_data m (rotate_rows f (data m)).

(** *** Mat::convertTo with a scale *)

(** [cvRound]: round to the nearest integer, a tie to the even one. *)
Definition cvRound (x : Q) : Z :=
  let f := Qfloor x in
  match Qcompare (x - inject_Z f) (1 # 2) with
  | Lt => f
  | Gt => f + 1
  | Eq => if Z.even f then f else f + 1
  end.

(** [saturate_cast<uchar>(int)]. *)
Definition saturate_uchar (v : Z) : Z := Z.max 0 (Z.min 255 v).

(** One sample of [convertTo(dst, CV_8U, alpha)]:
    [saturate_cast<uchar>(src * alpha)].  The product is kept as an exact
    rational; with the scale the pipeline passes, 1/256, it is exact in
    floating point as well for every 16-bit sample. *)
Definition convert_sample_8U (alpha : Q) (v : Z) : Z :=
  saturate_uchar (cvRound (inject_Z v * alpha)).

Definition convertTo_8U (m : Mat) (alpha : Q) : Mat :=
  mkMat CV_8U (channels m) (map (map (map (convert_sample_8U alpha))) (data m)).

(** *** Mat::forEach *)

Definition forEach (m : Mat) (f : Pixel -> Pixel) : Mat :=
  with_data m (map (map f) (data m)).

(** *** cv::cvtColor *)

Inductive ColorConversionCodes :=
| COLOR_GRAY2BGRA | COLOR_BGR2BGRA | COLOR_BGRA2RGBA | COLOR_BGR2RGB | COLOR_BGRA2RGB.

(** Channels of the destination. *)
Definition dcn (code : ColorConversionCodes) : Z :=
  match code with
  | COLOR_GRAY2BGRA | COLOR_BGR2BGRA | COLOR_BGRA2RGBA => 4
  | COLOR_BGR2RGB | COLOR_BGRA2RGB => 3
  end.

(** One pixel.  The conversions between the BGR family take three or four
    channels (a missing alpha reads as opaque, a surplus one is dropped); a
    pixel the code does not accept is left as it is. *)
Definition cvt_pixel (code : ColorConversionCodes) (amax : Z) (p : Pixel) : Pixel :=
  match code, p with
  | COLOR_GRAY2BGRA, [g] => [g; g; g; amax]
  | COLOR_BGR2BGRA, [b; g; r] => [b; g; r; amax]
  | COLOR_BGR2BGRA, [b; g; r; a] => [b; g; r; a]
  | COLOR_BGRA2RGBA, [b; g; r] => [r; g; b; amax]
  | COLOR_BGRA2RGBA, [b; g; r; a] => [r; g; b; a]
  | (COLOR_BGR2RGB | COLOR_BGRA2RGB), [b; g; r] => [r; g; b]
  | (COLOR_BGR2RGB | COLOR_BGRA2RGB), [b; g; r; _] => [r; g; b]
  | _, _ => p
  end.

Definition cvtColor (m : Mat) (code : ColorConversionCodes) : Mat :=
  mkMat (depth m) (dcn code) (map (map (cvt_pixel code (depth_max (depth m)))) (data m)).

(** *** cv::resize *)

(** [cv::resize] with an explicit size and no scale factors raises a
    [cv::Exception] unless both axes of the size are positive.  The
    resampling itself is a parameter of the pipeline. *)
Definition resize_accepts (w h : Z) : bool := (0 <? w) && (0 <? h).

(** *** cv::imwrite *)

(** What a call of [cv::imwrite] can do: return [true], return [false], or
    raise a [cv::Exception]. *)
Inductive WriteOutcome := Written | NotWritten | Raises.

End cv.

(** ** Collaborators of the pipeline *)

(** [Flags]: the configuration singleton, read only. *)
Record Flags := mkFlags {
  output : string;
  scale_factor : Z;
  no_cache : bool;
  origin_center : bool;
  needs_scaling : bool;
  use_opengl : bool
}.

Record Terminal := mkTerminal {
  font_width : Z;
  font_height : Z
}.

(** [Dimensions]: the origin in cells, the target box in pixels (what
    [max_wpixels()] and [max_hpixels()] return), the scaler and the terminal.
    The class is declared in dimensions.hpp, outside opencv.cpp; the origin
    is kept as an integer without a width of its own. *)
Record Dimensions := mkDimensions {
  x : Z;
  y : Z;
  max_wpixels : Z;
  max_hpixels : Z;
  scaler : string;
  terminal : Terminal
}.

Definition move_origin (d : Dimensions) (dx dy : Z) : Dimensions :=
  mkDimensions (x d - dx) (y d - dy) (max_wpixels d) (max_hpixels d) (scaler d) (terminal d).

(** Everything the pipeline obtains from outside itself: the decoder, the
    metadata reader, the size resolver of the [Image] base class (given the
    width and height it reads from the object, then its four arguments), the
    resampling of [cv::resize] with [INTER_AREA], the outcome of
    [cv::imwrite], the cache path, whether [cv::ocl::Context::getDefault()]
    holds a context, the build option [ENABLE_OPENGL] and the flags. *)
Record Env := mkEnv {
  imread : string -> cv.Mat;
  read_exif_rotation : string -> option Z;
  get_new_sizes : Z -> Z -> Z -> Z -> string -> Z -> Z * Z;
  resize : cv.Mat -> Z -> Z -> cv.Mat;
  imwrite : string -> cv.Mat -> cv.WriteOutcome;
  get_cache_file_save_location : string -> string;
  ocl_context : bool;
  ENABLE_OPENGL : bool;
  Flags_instance : Flags
}.

(** Modelled from the spec: [util::round_up], which is defined outside
    opencv.cpp: "round ... up to the nearest multiple of the scale factor",
    the scale factor being a positive integer.  For a multiple that is not
    positive the number is returned as it is. *)
Definition round_up (num_to_round multiple : Z) : Z :=
  if multiple <=? 0 then num_to_round
  else if num_to_round mod multiple =? 0 then num_to_round
  else num_to_round + multiple - num_to_round mod multiple.

(** ** Traces *)

Inductive Level := debug | info | warn | error.

(** The calls into the image library and the logger calls, as they happen. *)
Inductive Event :=
| Log (lvl : Level) (msg : string)
| Imread (filename : string)
| Flip (flipCode : Z)
| Rotate (rotateCode : cv.RotateFlags)
| Resize (width height : Z)
| Imwrite (filename : string) (img : cv.Mat)
| CopyTo
| ConvertTo
| ForEach
| CvtColor (code : cv.ColorConversionCodes).

(** ** The object *)

Record OpencvImage := mkOpencvImage {
  path : string;
  dims : Dimensions;
  max_width : Z;
  max_height : Z;
  in_cache : bool;
  image : cv.Mat;
  uimage : cv.Mat;
  opencl_available : bool;
  flags : Flags;
  _size : Z
}.

Definition width (o : OpencvImage) : Z := cv.cols (image o).
Definition height (o : OpencvImage) : Z := cv.rows (image o).
Definition size (o : OpencvImage) : Z := _size o.
Definition channels (o : OpencvImage) : Z := cv.channels (image o).
Definition dimensions (o : OpencvImage) : Dimensions := dims o.

Definition set_image (m : cv.Mat) (o : OpencvImage) : OpencvImage :=
  mkOpencvImage (path o) (dims o) (max_width o) (max_height o) (in_cache o)
                m (uimage o) (opencl_available o) (flags o) (_size o).
Definition set_uimage (m : cv.Mat) (o : OpencvImage) : OpencvImage :=
  mkOpencvImage (path o) (dims o) (max_width o) (max_height o) (in_cache o)
                (image o) m (opencl_available o) (flags o) (_size o).
Definition set_opencl_available (b : bool) (o : OpencvImage) : OpencvImage :=
  mkOpencvImage (path o) (dims o) (max_width o) (max_height o) (in_cache o)
                (image o) (uimage o) b (flags o) (_size o).
Definition set_dims (d : Dimensions) (o : OpencvImage) : OpencvImage :=
  mkOpencvImage (path o) d (max_width o) (max_height o) (in_cache o)
                (image o) (uimage o) (opencl_available o) (flags o) (_size o).
Definition set_size (n : Z) (o : OpencvImage) : OpencvImage :=
  mkOpencvImage (path o) (dims o) (max_width o) (max_height o) (in_cache o)
                (image o) (uimage o) (opencl_available o) (flags o) n.

(** ** The monad of the member functions: the object as state, the events as
    output.  A member function is modelled as the run in which every library
    call returns; the constructor cuts the run at a call that raises. *)

Definition M (A : Type) : Type := OpencvImage -> A * OpencvImage * list Event.

Definition ret {A} (a : A) : M A := fun o => (a, o, []).

Definition bind {A B} (m : M A) (k : A -> M B) : M B :=
  fun o =>
    let '(a, o1, t1) := m o in
    let '(b, o2, t2) := k a o1 in
    (b, o2, t1 ++ t2).

Declare Scope pipeline_scope.
Delimit Scope pipeline_scope with pipeline.
Notation "v <- m ;; k" := (bind m (fun v => k))
  (at level 61, m at next level, right associativity) : pipeline_scope.
Notation "m ;; k" := (bind m (fun _ => k))
  (at level 61, right associativity) : pipeline_scope.
Local Open Scope pipeline_scope.

Definition this : M OpencvImage := fun o => (o, o, []).
Definition update (f : OpencvImage -> OpencvImage) : M unit := fun o => (tt, f o, []).
Definition emit (e : Event) : M unit := fun o => (tt, o, [e]).
Definition logger (lvl : Level) (msg : string) : M unit := emit (Log lvl msg).

Definition state_of {A} (r : A * OpencvImage * list Event) : OpencvImage := snd (fst r).
Definition trace_of {A} (r : A * OpencvImage * list Event) : list Event := snd r.

(** The two buffers [resize_image_helper] is called on. *)
Inductive Buffer := image_buf | uimage_buf.

Definition load (b : Buffer) (o : OpencvImage) : cv.Mat :=
  match b with image_buf => image o | uimage_buf => uimage o end.
Definition store (b : Buffer) (m : cv.Mat) : OpencvImage -> OpencvImage :=
  match b with image_buf => set_image m | uimage_buf => set_uimage m end.

Definition EXIF_ORIENTATION_2 := 2.
Definition EXIF_ORIENTATION_3 := 3.
Definition EXIF_ORIENTATION_4 := 4.
Definition EXIF_ORIENTATION_5 := 5.
Definition EXIF_ORIENTATION_6 := 6.
Definition EXIF_ORIENTATION_7 := 7.
Definition EXIF_ORIENTATION_8 := 8.

Definition uint8_t (v : Z) : Z := v mod 256.

(** The body of the premultiplication loop, on one [cv::Vec4b]. *)
Definition premultiply (pix : cv.Pixel) : cv.Pixel :=
  match pix with
  | [p0; p1; p2; p3] =>
      let alpha := uint8_t p3 in
      let div := uint8_t 255 in
      [uint8_t ((p0 * alpha) ÷ div); uint8_t ((p1 * alpha) ÷ div);
       uint8_t ((p2 * alpha) ÷ div); p3]
  | _ => pix
  end.

Definition bgra_trifecta : list string := ["x11"; "chafa"; "wayland"].
Definition contains (s : list string) (k : string) : bool := existsb (String.eqb k) s.

Definition size_t (v : Z) : Z := v mod 2 ^ 64.

(** What leaves the constructor: its own [std::runtime_error], or the
    [cv::Exception] of a library function. *)
Inductive exn := runtime_error (what : string) | cv_Exception (func : string).

(** A call that raises: [cv::resize] on a size it does not accept.  Nothing
    in the class catches it. *)
Definition raises (e : Event) : bool :=
  match e with
  | Resize w h => negb (cv.resize_accepts w h)
  | _ => false
  end.

(** The events of a run up to the call that raises. *)
Fixpoint before_raise (t : list Event) : list Event :=
  match t with
  | [] => []
  | e :: t' => if raises e then [] else e :: before_raise t'
  end.

(** ** The member functions *)

Section Pipeline.

Variable E : Env.

(** [cv::flip(image, image, code)], [cv::rotate(image, image, code)] and
    [cv::cvtColor(image, image, code)], in place on the member [image]. *)
Definition flip_image (code : Z) : M unit :=
  update (fun o => set_image (cv.flip (image o) code) o) ;; emit (Flip code).

Definition rotate_by (code : cv.RotateFlags) : M unit :=
  update (fun o => set_image (cv.rotate (image o) code) o) ;; emit (Rotate code).

Definition cvtColor_image (code : cv.ColorConversionCodes) : M unit :=
  update (fun o => set_image (cv.cvtColor (image o) code) o) ;; emit (CvtColor code).

Definition rotate_image : M unit :=
  o <- this ;;
  match read_exif_rotation E (path o) with
  | None => ret tt
  | Some value =>
      if value =? EXIF_ORIENTATION_2 then flip_image 1
      else if value =? EXIF_ORIENTATION_3 then flip_image (-1)
      else if value =? EXIF_ORIENTATION_4 then flip_image 0
      else if value =? EXIF_ORIENTATION_5 then
        rotate_by cv.ROTATE_90_CLOCKWISE ;; flip_image 1
      else if value =? EXIF_ORIENTATION_6 then rotate_by cv.ROTATE_90_CLOCKWISE
      else if value =? EXIF_ORIENTATION_7 then
        rotate_by cv.ROTATE_90_COUNTERCLOCKWISE ;; flip_image 1
      else if value =? EXIF_ORIENTATION_8 then rotate_by cv.ROTATE_90_COUNTERCLOCKWISE
      else ret tt
  end.

Definition resize_image_helper (mat : Buffer) (new_width new_height : Z) : M unit :=
  logger debug "Resizing image" ;;
  update (fun o => store mat (resize E (load mat o) new_width new_height) o) ;;
  emit (Resize new_width new_height) ;;
  o <- this ;;
  if no_cache (flags o) then logger debug "Caching is disabled"
  else
    let save_location := get_cache_file_save_location E (path o) in
    emit (Imwrite save_location (load mat o)) ;;
    match imwrite E save_location (load mat o) with
    | cv.Raises => logger error "Could not save image"
    | cv.Written | cv.NotWritten => logger debug "Saved resized image"
    end.

Definition resize_image : M unit :=
  o <- this ;;
  if in_cache o then ret tt
  else
    let '(new_width, new_height) :=
      get_new_sizes E (width o) (height o) (max_width o) (max_height o)
                    (scaler (dims o)) (scale_factor (flags o)) in
    if (new_width <=? 0) && (new_height <=? 0) then
      if needs_scaling (flags o) then
        let curw := width o in
        let curh := height o in
        if negb (Z.rem curw 2 =? 0) || negb (Z.rem curh 2 =? 0) then
          resize_image_helper image_buf
                              (round_up curw (scale_factor (flags o)))
                              (round_up curh (scale_factor (flags o)))
        else ret tt
      else ret tt
    else
      update (set_opencl_available (ocl_context E)) ;;
      if ocl_context E then
        logger debug "OpenCL is available" ;;
        update (fun o => set_uimage (image o) o) ;; emit CopyTo ;;
        resize_image_helper uimage_buf new_width new_height ;;
        update (fun o => set_image (uimage o) o) ;; emit CopyTo
      else
        resize_image_helper image_buf new_width new_height.

(** The two quotients of [process_image] are computed in [double]; they are
    kept as exact rationals here.  For a width and a positive cell size in
    the range of [int] the rounding of the quotient cannot reach the next
    integer, so the floor is the same.  A cell size of 0 is outside the model:
    the code then divides a double by zero and converts a value that is not
    finite to the integer field, while the rational quotient is 0. *)
Definition process_image : M unit :=
  resize_image ;;
  o <- this ;;
  (if origin_center (flags o) then
     let img_width : Q := (inject_Z (width o) / inject_Z (font_width (terminal (dims o))))%Q in
     let img_height : Q := (inject_Z (height o) / inject_Z (font_height (terminal (dims o))))%Q in
     update (fun o => set_dims (move_origin (dims o)
                                            (Qfloor (img_width / (2 # 1)))
                                            (Qfloor (img_height / (2 # 1)))) o)
   else ret tt) ;;
  o <- this ;;
  (if cv.Depth_eqb (cv.depth (image o)) cv.CV_16U then
     let alpha : Q := (1 # 256)%Q in
     update (fun o => set_image (cv.convertTo_8U (image o) alpha) o) ;; emit ConvertTo
   else ret tt) ;;
  o <- this ;;
  (if cv.channels (image o) =? 4 then
     update (fun o => set_image (cv.forEach (image o) premultiply) o) ;; emit ForEach
   else ret tt) ;;
  o <- this ;;
  (if ENABLE_OPENGL E && use_opengl (flags o) then flip_image 0 else ret tt) ;;
  o <- this ;;
  (if cv.channels (image o) =? 1 then cvtColor_image cv.COLOR_GRAY2BGRA else ret tt) ;;
  o <- this ;;
  (if contains bgra_trifecta (output (flags o)) then
     if cv.channels (image o) =? 3 then cvtColor_image cv.COLOR_BGR2BGRA else ret tt
   else if String.eqb (output (flags o)) "kitty" then
     if cv.channels (image o) =? 4 then cvtColor_image cv.COLOR_BGRA2RGBA
     else cvtColor_image cv.COLOR_BGR2RGB
   else if String.eqb (output (flags o)) "sixel" then
     if cv.channels (image o) =? 4 then cvtColor_image cv.COLOR_BGRA2RGB
     else cvtColor_image cv.COLOR_BGR2RGB
   else ret tt) ;;
  update (fun o => set_size (size_t (cv.total (image o) * cv.elemSize (image o))) o).

(** The members after the initializer list and the decoding: [flags] is read
    from the singleton, [uimage] starts empty. *)
Definition decoded (new_dims : Dimensions) (filename : string) (in_cache : bool)
  : OpencvImage :=
  mkOpencvImage filename new_dims (max_wpixels new_dims) (max_hpixels new_dims)
                in_cache (imread E filename) (cv.mkMat cv.CV_8U 1 []) false
                (Flags_instance E) 0.

(** The constructor: the exception it raises or the object it builds, and
    the trace.  When [cv::resize] raises, the exception leaves
    [resize_image_helper], [resize_image], [process_image] and the
    constructor: the trace ends before that call and there is no object. *)
Definition OpencvImage_new (new_dims : Dimensions) (filename : string) (in_cache : bool)
  : (exn + OpencvImage) * list Event :=
  let o := decoded new_dims filename in_cache in
  if cv.empty (image o) then
    (inl (runtime_error ""), [Imread filename; Log warn "unable to read image"])
  else
    let r := (rotate_image ;; process_image) o in
    if existsb raises (trace_of r) then
      (inl (cv_Exception "resize"),
       [Imread filename; Log info "loading file {}"] ++ before_raise (trace_of r))
    else
      (inr (state_of r), [Imread filename; Log info "loading file {}"] ++ trace_of r).

End Pipeline.

(** Environments that differ from a given one in the orientation tag read, or
    in what [cv::imwrite] does. *)
Definition with_exif (tag : option Z) (E : Env) : Env :=
  mkEnv (imread E) (fun _ => tag) (get_new_sizes E) (resize E) (imwrite E)
        (get_cache_file_save_location E) (ocl_context E) (ENABLE_OPENGL E) (Flags_instance E).

Definition with_imwrite (w : string -> cv.Mat -> cv.WriteOutcome) (E : Env) : Env :=
  mkEnv (imread E) (read_exif_rotation E) (get_new_sizes E) (resize E) w
        (get_cache_file_save_location E) (ocl_context E) (ENABLE_OPENGL E) (Flags_instance E).

(** What the library promises of [cv::resize] with an explicit size: the
    destination has that size. *)
Definition resize_to_size (E : Env) : Prop :=
  forall m w h, 0 < w -> 0 < h ->
    cv.cols (resize E m w h) = w /\ cv.rows (resize E m w h) = h.

(** Classes of events. *)
Definition is_resize (e : Event) : bool :=
  match e with Resize _ _ => true | _ => false end.
Definition is_imwrite (e : Event) : bool :=
  match e with Imwrite _ _ => true | _ => false end.
Definition is_premultiply (e : Event) : bool :=
  match e with ForEach => true | _ => false end.
Definition is_colorize (e : Event) : bool :=
  match e with ConvertTo | ForEach | CvtColor _ => true | _ => false end.
Definition is_failure_report (e : Event) : bool :=
  match e with Log error _ | Log warn _ => true | _ => false end.

Definition is_geometry (e : Event) : bool :=
  match e with Flip _ | Rotate _ => true | _ => false end.

Definition calls (p : Event -> bool) (t : list Event) : nat := List.length (filter p t).

(** ** The tables of the specification, in its own words *)

Module Spec.

(** *** The orientation table: the transforms as maps of coordinates *)

Section Transforms.
Context {A : Type} (d : A).

Definition px (m : list (list A)) (r c : nat) : A := nth c (nth r m []) d.
Definition nrows (m : list (list A)) : nat := List.length m.
Definition ncols (m : list (list A)) : nat := List.length (hd [] m).

Definition tabulate (h w : nat) (f : nat -> nat -> A) : list (list A) :=
  map (fun r => map (fun c => f r c) (seq 0 w)) (seq 0 h).

(** Mirror left to right. *)
Definition horizontal_flip (m : list (list A)) : list (list A) :=
  tabulate (nrows m) (ncols m) (fun r c => px m r (ncols m - 1 - c)).

(** Mirror top to bottom. *)
Definition vertical_flip (m : list (list A)) : list (list A) :=
  tabulate (nrows m) (ncols m) (fun r c => px m (nrows m - 1 - r) c).

(** Half a turn. *)
Definition flip_both_axes (m : list (list A)) : list (list A) :=
  tabulate (nrows m) (ncols m) (fun r c => px m (nrows m - 1 - r) (ncols m - 1 - c)).

(** A quarter turn clockwise: the left column, read upwards, becomes the
    top row. *)
Definition rotate_90_clockwise (m : list (list A)) : list (list A) :=
  tabulate (ncols m) (nrows m) (fun r c => px m (nrows m - 1 - c) r).

(** A quarter turn counter-clockwise: the right column, read downwards,
    becomes the top row. *)
Definition rotate_90_counter_clockwise (m : list (list A)) : list (list A) :=
  tabulate (ncols m) (nrows m) (fun r c => px m c (ncols m - 1 - r)).

Definition orientation_table (tag : option Z) (m : list (list A)) : list (list A) :=
  match tag with
  | Some 2 => horizontal_flip m
  | Some 3 => flip_both_axes m
  | Some 4 => vertical_flip m
  | Some 5 => horizontal_flip (rotate_90_clockwise m)
  | Some 6 => rotate_90_clockwise m
  | Some 7 => horizontal_flip (rotate_90_counter_clockwise m)
  | Some 8 => rotate_90_counter_clockwise m
  | _ => m
  end.

Definition rectangular (m : list (list A)) : Prop :=
  Forall (fun row => List.length row = ncols m) m.
End Transforms.

(** *** The table of final layouts *)

Inductive Layout := BGRA | RGBA | RGB.

Definition layout_channels (l : Layout) : Z :=
  match l with BGRA | RGBA => 4 | RGB => 3 end.

Inductive Backend := x11 | wayland | chafa | kitty | sixel.

Definition backend_name (b : Backend) : string :=
  match b with
  | x11 => "x11" | wayland => "wayland" | chafa => "chafa"
  | kitty => "kitty" | sixel => "sixel"
  end.

(** Step 4, after a one-channel input has been expanded to four channels. *)
Definition final_layout (b : Backend) (input_channels : Z) : Layout :=
  match b with
  | x11 | wayland | chafa => BGRA
  | kitty => if input_channels =? 3 then RGB else RGBA
  | sixel => RGB
  end.

Record Color := mkColor { blue : Z; green : Z; red : Z; alpha : Z }.

Definition opaque : Z := 255.

(** The colour a stored pixel stands for: gray, BGR or BGRA. *)
Definition color_of (p : cv.Pixel) : Color :=
  match p with
  | [g] => mkColor g g g opaque
  | [b; g; r] => mkColor b g r opaque
  | [b; g; r; a] => mkColor b g r a
  | _ => mkColor 0 0 0 0
  end.

Definition encode (l : Layout) (c : Color) : cv.Pixel :=
  match l with
  | BGRA => [blue c; green c; red c; alpha c]
  | RGBA => [red c; green c; blue c; alpha c]
  | RGB => [red c; green c; blue c]
  end.

(** Step 2 in the words of the specification. *)
Definition premultiplied (p : cv.Pixel) : cv.Pixel :=
  match p with
  | [b; g; r; a] => [(b * a) / 255; (g * a) / 255; (r * a) / 255; a]
  | _ => p
  end.

(** Step 1 in the words of the specification: times 1/256, truncated. *)
Definition truncating_downscale (v : Z) : Z := v / 256.

End Spec.

(** ** The stages of [process_image] after the resize, as functions of the
    image *)

Definition to_8bit (m : cv.Mat) : cv.Mat :=
  if cv.Depth_eqb (cv.depth m) cv.CV_16U then cv.convertTo_8U m (1 # 256) else m.

Definition alpha_stage (m : cv.Mat) : cv.Mat :=
  if cv.channels m =? 4 then cv.forEach m premultiply else m.

Definition opengl_stage (gl : bool) (m : cv.Mat) : cv.Mat :=
  if gl then cv.flip m 0 else m.

Definition gray_stage (m : cv.Mat) : cv.Mat :=
  if cv.channels m =? 1 then cv.cvtColor m cv.COLOR_GRAY2BGRA else m.

Definition backend_stage (out : string) (m : cv.Mat) : cv.Mat :=
  if contains bgra_trifecta out then
    if cv.channels m =? 3 then cv.cvtColor m cv.COLOR_BGR2BGRA else m
  else if String.eqb out "kitty" then
    if cv.channels m =? 4 then cv.cvtColor m cv.COLOR_BGRA2RGBA
    else cv.cvtColor m cv.COLOR_BGR2RGB
  else if String.eqb out "sixel" then
    if cv.channels m =? 4 then cv.cvtColor m cv.COLOR_BGRA2RGB
    else cv.cvtColor m cv.COLOR_BGR2RGB
  else m.

Definition colorize (gl : bool) (out : string) (m : cv.Mat) : cv.Mat :=
  backend_stage out (gray_stage (opengl_stage gl (alpha_stage (to_8bit m)))).

Definition colorize_trace (gl : bool) (out : string) (m : cv.Mat) : list Event :=
  let m1 := to_8bit m in
  let m2 := alpha_stage m1 in
  let m3 := opengl_stage gl m2 in
  let m4 := gray_stage m3 in
  (if cv.Depth_eqb (cv.depth m) cv.CV_16U then [ConvertTo] else []) ++
  (if cv.channels m1 =? 4 then [ForEach] else []) ++
  (if gl then [Flip 0] else []) ++
  (if cv.channels m3 =? 1 then [CvtColor cv.COLOR_GRAY2BGRA] else []) ++
  (if contains bgra_trifecta out then
     if cv.channels m4 =? 3 then [CvtColor cv.COLOR_BGR2BGRA] else []
   else if String.eqb out "kitty" then
     if cv.channels m4 =? 4 then [CvtColor cv.COLOR_BGRA2RGBA]
     else [CvtColor cv.COLOR_BGR2RGB]
   else if String.eqb out "sixel" then
     if cv.channels m4 =? 4 then [CvtColor cv.COLOR_BGRA2RGB]
     else [CvtColor cv.COLOR_BGR2RGB]
   else []).

(** The origin after the centring step. *)
Definition centered (o : OpencvImage) : Dimensions :=
  if origin_center (flags o) then
    move_origin (dims o)
      (Qfloor (inject_Z (width o) / inject_Z (font_width (terminal (dims o))) / (2 # 1)))
      (Qfloor (inject_Z (height o) / inject_Z (font_height (terminal (dims o))) / (2 # 1)))
  else dims o.

(** What [resize_image_helper] leaves in the trace after the resize call. *)
Definition cache_events (E : Env) (o : OpencvImage) (resized : cv.Mat) : list Event :=
  if no_cache (flags o) then [Log debug "Caching is disabled"]
  else
    let save_location := get_cache_file_save_location E (path o) in
    [Imwrite save_location resized;
     match imwrite E save_location resized with
     | cv.Raises => Log error "Could not save image"
     | _ => Log debug "Saved resized image"
     end].

(** The size at which [resize_image] calls [resize_image_helper], if it
    does, and whether the call goes through the accelerator buffer. *)
Definition degenerate (sizes : Z * Z) : bool :=
  (fst sizes <=? 0) && (snd sizes <=? 0).

Definition resolved (E : Env) (o : OpencvImage) : Z * Z :=
  get_new_sizes E (width o) (height o) (max_width o) (max_height o)
                (scaler (dims o)) (scale_factor (flags o)).

Definition odd_sized (o : OpencvImage) : bool :=
  negb (Z.rem (width o) 2 =? 0) || negb (Z.rem (height o) 2 =? 0).

Definition resize_request (E : Env) (o : OpencvImage) : option (Z * Z) :=
  if in_cache o then None
  else if degenerate (resolved E o) then
    if needs_scaling (flags o) && odd_sized o then
      Some (round_up (width o) (scale_factor (flags o)),
            round_up (height o) (scale_factor (flags o)))
    else None
  else Some (resolved E o).

Definition accelerated (E : Env) (o : OpencvImage) : bool :=
  negb (in_cache o) && negb (degenerate (resolved E o)) && ocl_context E.

(** What [resize_image] leaves in the member [image] and in the trace. *)
Definition resized_image (E : Env) (o : OpencvImage) : cv.Mat :=
  match resize_request E o with
  | None => image o
  | Some (w, h) => resize E (image o) w h
  end.

Definition resize_trace (E : Env) (o : OpencvImage) : list Event :=
  match resize_request E o with
  | None => []
  | Some (w, h) =>
      (if accelerated E o then [Log debug "OpenCL is available"; CopyTo] else []) ++
      Log debug "Resizing image" :: Resize w h ::
      cache_events E o (resize E (image o) w h) ++
      (if accelerated E o then [CopyTo] else [])
  end.

(** A result with more events in front of its trace. *)
Definition prepend {A} (t : list Event) (r : A * OpencvImage * list Event)
  : A * OpencvImage * list Event :=
  (fst (fst r), state_of r, t ++ trace_of r).

(** ** Further members and vocabulary *)

Definition filename (o : OpencvImage) : string := path o.

Definition wayland_processing : M unit :=
  (o <- this ;;
   if negb (String.eqb (output (flags o)) "wayland") then ret tt else ret tt)%pipeline.

(** Whether the transform of an orientation tag exchanges width and height,
    and the pixel of a source of [H] rows and [W] columns that lands at row
    [r], column [c]. *)
Definition swaps_axes (tag : option Z) : bool :=
  match tag with
  | Some 5 | Some 6 | Some 7 | Some 8 => true
  | _ => false
  end.

Definition source_pixel (tag : option Z) (H W r c : nat) : nat * nat :=
  match tag with
  | Some 2 => (r, W - 1 - c)%nat
  | Some 3 => (H - 1 - r, W - 1 - c)%nat
  | Some 4 => (H - 1 - r, c)%nat
  | Some 5 => (c, r)
  | Some 6 => (H - 1 - c, r)%nat
  | Some 7 => (H - 1 - c, W - 1 - r)%nat
  | Some 8 => (c, W - 1 - r)%nat
  | _ => (r, c)
  end.

(** Every sample of a buffer lies between 0 and [hi]. *)
Definition samples_within (hi : Z) (d : list (list cv.Pixel)) : Prop :=
  Forall (Forall (Forall (fun v : Z => 0 <= v <= hi))) d.

Definition is_error_log (e : Event) : bool :=
  match e with Log error _ => true | _ => false end.

Definition is_library_call (e : Event) : bool :=
  match e with Log _ _ => false | _ => true end.

(** The tag whose transform undoes the transform of a tag. *)
Definition inverse_orientation (tag : option Z) : option Z :=
  match tag with
  | Some 6 => Some 8
  | Some 8 => Some 6
  | _ => tag
  end.

(** Every pixel has four samples, the last one being [a]. *)
Definition alpha_everywhere (a : Z) (d : list (list cv.Pixel)) : Prop :=
  Forall (Forall (fun p : cv.Pixel => List.length p = 4%nat /\ nth 3 p 0 = a)) d.

(** A cache write for which [cv::imwrite] raises. *)
Definition is_raised_write (E : Env) (e : Event) : bool :=
  match e with
  | Imwrite file m =>
      match imwrite E file m with cv.Raises => true | _ => false end
  | _ => false
  end.

(** An environment with another cache: where the files go and what writing
    them does. *)
Definition with_cache (loc : string -> string)
           (w : string -> cv.Mat -> cv.WriteOutcome) (E : Env) : Env :=
  mkEnv (imread E) (read_exif_rotation E) (get_new_sizes E) (resize E) w
        loc (ocl_context E) (ENABLE_OPENGL E) (Flags_instance E).

(** The events of the resize step: the resize, the cache write, the copies
    to and from the accelerator buffer, and what it logs. *)
Definition is_resize_step (e : Event) : bool :=
  match e with Log _ _ | CopyTo | Resize _ _ | Imwrite _ _ => true | _ => false end.

(** The events of the colour stages: the depth conversion, the
    premultiplication, the colour conversions and the OpenGL flip. *)
Definition is_color_step (e : Event) : bool :=
  match e with
  | ConvertTo | ForEach | CvtColor _ => true
  | Flip code => code =? 0
  | _ => false
  end.

(** Whether the size [resize_image] asks for makes [cv::resize] raise, and
    what the resize step has logged and copied by then. *)
Definition resize_rejected (E : Env) (o : OpencvImage) : bool :=
  match resize_request E o with
  | Some (w, h) => negb (cv.resize_accepts w h)
  | None => false
  end.

Definition resize_prelude (E : Env) (o : OpencvImage) : list Event :=
  (if accelerated E o then [Log debug "OpenCL is available"; CopyTo] else []) ++
  [Log debug "Resizing image"].




(** ** Concrete inputs *)

Module Sample.

(** A nearest-neighbour resampling, standing in for the library's. *)
Definition pick {A} (src : list A) (n : nat) (d : A) : list A :=
  map (fun i => nth (i * List.length src / n)%nat src d) (seq 0 n).

Definition nearest (m : cv.Mat) (w h : Z) : cv.Mat :=
  cv.with_data m (map (fun row => pick row (Z.to_nat w) [])
                      (pick (cv.data m) (Z.to_nat h) [])).

Definition cache_path (p : string) : string := "/tmp/cache/" ++ p.

Definition solid (w h : nat) (p : cv.Pixel) : list (list cv.Pixel) :=
  repeat (repeat p w) h.

Definition term : Terminal := mkTerminal 8 16.
Definition box : Dimensions := mkDimensions 5 5 800 600 "contain" term.

(** A 3x2 BGR picture with six different pixels. *)
Definition six : cv.Mat :=
  cv.mkMat cv.CV_8U 3
    [[[1; 2; 3]; [4; 5; 6]; [7; 8; 9]];
     [[10; 11; 12]; [13; 14; 15]; [16; 17; 18]]].

(** A half-transparent BGRA pixel. *)
Definition veil : cv.Mat := cv.mkMat cv.CV_8U 4 [[[200; 100; 50; 128]]].

(** A 16-bit gray pixel of intensity 200; a row of 16-bit gray pixels, the
    first one of the largest intensity. *)
Definition dim16 : cv.Mat := cv.mkMat cv.CV_16U 1 [[[200]]].
Definition bright16 : cv.Mat := cv.mkMat cv.CV_16U 1 [[[65535]; [384]; [127]]].

(** Pictures of 101x2 and of 80x160 pixels. *)
Definition odd_wide : cv.Mat := cv.mkMat cv.CV_8U 3 (solid 101 2 [9; 9; 9]).
Definition poster : cv.Mat := cv.mkMat cv.CV_8U 3 (solid 80 160 [9; 9; 9]).

Definition env_of (img : cv.Mat) (tag : option Z) (sizes : Z * Z)
           (w : cv.WriteOutcome) (f : Flags) : Env :=
  mkEnv (fun _ => img) (fun _ => tag) (fun _ _ _ _ _ _ => sizes) nearest
        (fun _ _ => w) cache_path false false f.

Definition object_of (E : Env) (img : cv.Mat) (cached : bool) : OpencvImage :=
  mkOpencvImage "a.png" box (max_wpixels box) (max_hpixels box) cached img
                (cv.mkMat cv.CV_8U 1 []) false (Flags_instance E) 0.

(** Flags: backend, scale factor, no_cache, origin_center, needs_scaling,
    use_opengl. *)
Definition even_flags : Flags := mkFlags "x11" 2 false false true false.
Definition center_flags : Flags := mkFlags "x11" 1 false true false false.
Definition kitty_flags : Flags := mkFlags "kitty" 1 false false false false.

Definition even_env : Env := env_of odd_wide None (0, 0) cv.Written even_flags.
Definition full_disk_env : Env := env_of six None (2, 2) cv.NotWritten even_flags.
Definition dim_env : Env := env_of dim16 None (0, 0) cv.Written kitty_flags.
Definition bright_env : Env := env_of bright16 None (0, 0) cv.Written kitty_flags.
Definition poster_env : Env := env_of poster None (0, 0) cv.Written center_flags.
Definition turned_env : Env := env_of six (Some 6) (2, 2) cv.Written kitty_flags.

Definition turned : OpencvImage := object_of turned_env six false.

Definition odd_object : OpencvImage := object_of even_env odd_wide false.

Definition dim_object : OpencvImage := object_of dim_env dim16 false.

Definition poster_object : OpencvImage := object_of poster_env poster false.

Definition full_disk_object : OpencvImage := object_of full_disk_env six false.

Definition bright_object : OpencvImage := object_of bright_env bright16 false.

End Sample.

(** ** More concrete inputs *)

Module More.

(** An environment in which the cache write raises. *)
Definition raising_env : Env :=
  Sample.env_of Sample.six None (2, 2) cv.Raises Sample.even_flags.

(** A backend name the pipeline has no conversion for. *)
Definition iterm_flags : Flags := mkFlags "iterm2" 1 true false false false.
Definition iterm_env : Env :=
  Sample.env_of Sample.six None (0, 0) cv.Written iterm_flags.
Definition iterm_object : OpencvImage := Sample.object_of iterm_env Sample.six true.

(** A picture from the cache, with centring requested. *)
Definition cached_env : Env :=
  Sample.env_of Sample.six (Some 6) (2, 2) cv.Written Sample.center_flags.
Definition cached_object : OpencvImage := Sample.object_of cached_env Sample.six true.



End More.

(** * Proofs *)

(** ** Running the member functions *)

Section Runs.

Variable E : Env.

Lemma state_of_bind {A B} (m : M A) (k : A -> M B) (o : OpencvImage) :
  state_of (bind m k o) = state_of (k (fst (fst (m o))) (state_of (m o))).
Proof.
  unfold bind, state_of. destruct (m o) as [[a o1] t1]. cbn.
  destruct (k a o1) as [[b o2] t2]. reflexivity.
Qed.

Lemma trace_of_bind {A B} (m : M A) (k : A -> M B) (o : OpencvImage) :
  trace_of (bind m k o) =
  trace_of (m o) ++ trace_of (k (fst (fst (m o))) (state_of (m o))).
Proof.
  unfold bind, state_of, trace_of. destruct (m o) as [[a o1] t1]. cbn.
  destruct (k a o1) as [[b o2] t2]. reflexivity.
Qed.

Lemma load_store (mat : Buffer) (m : cv.Mat) (o : OpencvImage) :
  load mat (store mat m o) = m.
Proof. destruct mat; reflexivity. Qed.

Lemma flags_store (mat : Buffer) (m : cv.Mat) (o : OpencvImage) :
  flags (store mat m o) = flags o.
Proof. destruct mat; reflexivity. Qed.

Lemma path_store (mat : Buffer) (m : cv.Mat) (o : OpencvImage) :
  path (store mat m o) = path o.
Proof. destruct mat; reflexivity. Qed.

Lemma resize_image_helper_run (mat : Buffer) (w h : Z) (o : OpencvImage) :
  resize_image_helper E mat w h o =
  (tt, store mat (resize E (load mat o) w h) o,
   Log debug "Resizing image" :: Resize w h ::
     cache_events E o (resize E (load mat o) w h)).
Proof.
  unfold resize_image_helper, cache_events, bind, logger, emit, update, this.
  cbn. rewrite flags_store, load_store, path_store.
  destruct (no_cache (flags o)); [reflexivity|].
  destruct (imwrite E _ _); reflexivity.
Qed.

Lemma resize_image_run (o : OpencvImage) :
  image (state_of (resize_image E o)) = resized_image E o /\
  trace_of (resize_image E o) = resize_trace E o /\
  dims (state_of (resize_image E o)) = dims o /\
  flags (state_of (resize_image E o)) = flags o /\
  path (state_of (resize_image E o)) = path o /\
  in_cache (state_of (resize_image E o)) = in_cache o.
Proof.
  unfold resized_image, resize_trace, resize_request, accelerated,
    resolved, degenerate, odd_sized, resize_image, bind, this, update, logger, emit, ret.
  cbv beta iota zeta.
  destruct (in_cache o) eqn:Hc.
  { cbn. rewrite Hc. auto 6. }
  destruct (get_new_sizes E _ _ _ _ _ _) as [nw nh] eqn:Hs. cbn [fst snd].
  destruct ((nw <=? 0) && (nh <=? 0)) eqn:Hd; cbn [negb andb].
  - destruct (needs_scaling (flags o)); cbn [andb].
    2:{ cbn. rewrite Hc. auto 6. }
    destruct (negb _ || negb _).
    2:{ cbn. rewrite Hc. auto 6. }
    rewrite resize_image_helper_run. cbn. rewrite ?app_nil_r, ?Hc. auto 6.
  - destruct (ocl_context E) eqn:Ho.
    + rewrite resize_image_helper_run.
      cbn. rewrite ?app_nil_r, ?Hc. auto 6.
    + rewrite resize_image_helper_run. cbn.
      rewrite ?app_nil_r, ?Hc. auto 6.
Qed.

Lemma set_image_same (s : OpencvImage) : set_image (image s) s = s.
Proof. destruct s; reflexivity. Qed.

(** A stage of [process_image]: under a condition on the object, one
    library call on the image. *)
Lemma image_stage_run (c : OpencvImage -> bool) (f : OpencvImage -> cv.Mat) (e : Event)
      (k : M unit) (s : OpencvImage) :
  bind this (fun o =>
    bind (if c o
          then bind (update (fun o' => set_image (f o') o')) (fun _ => emit e)
          else ret tt)
         (fun _ => k)) s
  = prepend (if c s then [e] else [])
            (k (set_image (if c s then f s else image s) s)).
Proof.
  unfold bind, this, update, emit, ret, prepend, state_of, trace_of.
  destruct (c s); cbn.
  - destruct (k _) as [[b o2] t2]. reflexivity.
  - rewrite set_image_same. destruct (k s) as [[b o2] t2]. reflexivity.
Qed.

Lemma set_dims_same (s : OpencvImage) : set_dims (dims s) s = s.
Proof. destruct s; reflexivity. Qed.

Lemma origin_stage_run (c : OpencvImage -> bool) (dx dy : OpencvImage -> Z)
      (k : M unit) (s : OpencvImage) :
  bind this (fun o =>
    bind (if c o
          then update (fun o' => set_dims (move_origin (dims o') (dx o) (dy o)) o')
          else ret tt)
         (fun _ => k)) s
  = k (set_dims (if c s then move_origin (dims s) (dx s) (dy s) else dims s) s).
Proof.
  unfold bind, this, update, ret.
  destruct (c s); cbn; [|rewrite set_dims_same];
    destruct (k _) as [[b o2] t2]; reflexivity.
Qed.

Lemma prepend_eq {A} (t T' T : list Event) (r : A * OpencvImage * list Event)
      (a : A) (S : OpencvImage) :
  r = (a, S, T') -> t ++ T' = T -> prepend t r = (a, S, T).
Proof. intros -> <-. reflexivity. Qed.

Lemma process_image_run (o : OpencvImage) :
  let o1 := state_of (resize_image E o) in
  let gl := ENABLE_OPENGL E && use_opengl (flags o) in
  let final := colorize gl (output (flags o)) (image o1) in
  state_of (process_image E o) =
    set_size (size_t (cv.total final * cv.elemSize final))
             (set_image final (set_dims (centered o1) o1)) /\
  trace_of (process_image E o) =
    trace_of (resize_image E o) ++ colorize_trace gl (output (flags o)) (image o1).
Proof.
  destruct (resize_image_run o) as (_ & _ & _ & Hf & _).
  cbv zeta. rewrite <- Hf. clear Hf.
  unfold process_image. rewrite state_of_bind, trace_of_bind.
  generalize (state_of (resize_image E o)) as s.
  generalize (trace_of (resize_image E o)) as t. intros t s.
  generalize (fst (fst (resize_image E o))) as u. intros u.
  match goal with
  | |- state_of ?r = ?S /\ _ ++ trace_of ?r = _ ++ ?T =>
      assert (Hrun : r = (tt, S, T)); [|rewrite Hrun; split; reflexivity]
  end.
  etransitivity; [refine (origin_stage_run _ _ _ _ _)|].
  unfold flip_image, cvtColor_image, colorize_trace, colorize. cbv zeta.
  fold (centered s).
  etransitivity; [refine (image_stage_run _ _ _ _ _)|].
  eapply prepend_eq; [cbn [image flags set_image set_dims]|reflexivity].
  fold (to_8bit (image s)).
  etransitivity; [refine (image_stage_run _ _ _ _ _)|].
  eapply prepend_eq; [cbn [image flags set_image set_dims]|reflexivity].
  fold (alpha_stage (to_8bit (image s))).
  etransitivity; [refine (image_stage_run _ _ _ _ _)|].
  eapply prepend_eq; [cbn [image flags set_image set_dims]|reflexivity].
  fold (opengl_stage (ENABLE_OPENGL E && use_opengl (flags s))
                     (alpha_stage (to_8bit (image s)))).
  etransitivity; [refine (image_stage_run _ _ _ _ _)|].
  eapply prepend_eq; [cbn [image flags set_image set_dims]|reflexivity].
  fold (gray_stage (opengl_stage (ENABLE_OPENGL E && use_opengl (flags s))
                                 (alpha_stage (to_8bit (image s))))).
  generalize (gray_stage (opengl_stage (ENABLE_OPENGL E && use_opengl (flags s))
                                       (alpha_stage (to_8bit (image s))))) as m4.
  intros m4.
  generalize (opengl_stage (ENABLE_OPENGL E && use_opengl (flags s))
                           (alpha_stage (to_8bit (image s)))) as m3.
  generalize (alpha_stage (to_8bit (image s))) as m2.
  generalize (to_8bit (image s)) as m1.
  generalize (centered s) as d. intros d m1 m2 m3.
  unfold backend_stage, bind, this, update, emit, ret.
  destruct s as [p d0 mw mh ic img uimg ocl fl sz].
  cbn -[contains String.eqb].
  destruct (contains bgra_trifecta (output fl));
    [destruct (cv.channels m4 =? 3); reflexivity|].
  destruct (output fl =? "kitty")%string;
    [destruct (cv.channels m4 =? 4); reflexivity|].
  destruct (output fl =? "sixel")%string;
    [destruct (cv.channels m4 =? 4); reflexivity|reflexivity].
Qed.

Lemma process_image_image (o : OpencvImage) :
  image (state_of (process_image E o)) =
  colorize (ENABLE_OPENGL E && use_opengl (flags o)) (output (flags o))
           (image (state_of (resize_image E o))).
Proof.
  destruct (process_image_run o) as [Hst _]. cbv zeta in Hst. now rewrite Hst.
Qed.

End Runs.

(** ** Flips and quarter turns as maps of coordinates *)

Section GeometryFacts.

Context {A : Type} (d : A).

Local Open Scope nat_scope.

Lemma nth_nil (c : nat) : nth c (@nil A) d = d.
Proof. destruct c; reflexivity. Qed.

Lemma tabulate_length (h w : nat) (f : nat -> nat -> A) :
  length (Spec.tabulate h w f) = h.
Proof. unfold Spec.tabulate. now rewrite length_map, length_seq. Qed.

Lemma tabulate_row (h w : nat) (f : nat -> nat -> A) (r : nat) :
  r < h -> nth r (Spec.tabulate h w f) [] = map (fun c => f r c) (seq 0 w).
Proof.
  intros Hr. unfold Spec.tabulate.
  rewrite (nth_indep _ [] (map (fun c => f 0 c) (seq 0 w)))
    by now rewrite length_map, length_seq.
  rewrite (map_nth (fun r => map (fun c => f r c) (seq 0 w)) (seq 0 h) 0 r).
  now rewrite seq_nth.
Qed.

Lemma tabulate_px (h w : nat) (f : nat -> nat -> A) (r c : nat) :
  r < h -> c < w -> Spec.px d (Spec.tabulate h w f) r c = f r c.
Proof.
  intros Hr Hc. unfold Spec.px. rewrite tabulate_row by assumption.
  rewrite (nth_indep _ d (f r 0)) by now rewrite length_map, length_seq.
  rewrite (map_nth (fun c => f r c) (seq 0 w) 0 c).
  now rewrite seq_nth.
Qed.

(** A list of rows is the table of its coordinates. *)
Lemma tabulate_eq (h w : nat) (f : nat -> nat -> A) (l : list (list A)) :
  length l = h ->
  (forall r, r < h -> length (nth r l []) = w) ->
  (forall r c, r < h -> c < w -> Spec.px d l r c = f r c) ->
  l = Spec.tabulate h w f.
Proof.
  intros Hl Hw Hpx.
  apply (nth_ext l (Spec.tabulate h w f) [] []).
  - now rewrite tabulate_length.
  - intros r Hr. rewrite Hl in Hr. rewrite tabulate_row by assumption.
    apply (nth_ext _ _ d d).
    + now rewrite length_map, length_seq, Hw.
    + intros c Hc. rewrite Hw in Hc by assumption.
      fold (Spec.px d l r c). rewrite Hpx by assumption.
      rewrite (nth_indep _ d (f r 0)) by now rewrite length_map, length_seq.
      rewrite (map_nth (fun c => f r c) (seq 0 w) 0 c).
      now rewrite seq_nth.
Qed.

Lemma rectangular_row (m : list (list A)) (r : nat) :
  Spec.rectangular m -> r < length m -> length (nth r m []) = Spec.ncols m.
Proof.
  intros Hm Hr. unfold Spec.rectangular in Hm. rewrite Forall_forall in Hm.
  apply Hm, nth_In, Hr.
Qed.

Lemma tabulate_rectangular (h w : nat) (f : nat -> nat -> A) :
  Spec.rectangular (Spec.tabulate h w f).
Proof.
  unfold Spec.rectangular, Spec.ncols. apply Forall_forall. intros row Hin.
  destruct h as [|h]; [contradiction|].
  assert (Hrow : forall x, In x (Spec.tabulate (S h) w f) -> length x = w).
  { intros x Hx. unfold Spec.tabulate in Hx. apply in_map_iff in Hx.
    destruct Hx as (r & <- & _). now rewrite length_map, length_seq. }
  rewrite (Hrow row Hin). symmetry. apply Hrow. cbn. now left.
Qed.

Lemma tabulate_ncols (h w : nat) (f : nat -> nat -> A) :
  0 < h -> Spec.ncols (Spec.tabulate h w f) = w.
Proof.
  intros Hh. unfold Spec.ncols. destruct h as [|h]; [lia|].
  cbn. now rewrite length_map, length_seq.
Qed.

Lemma horizontal_flip_correct (m : list (list A)) :
  Spec.rectangular m -> cv.flip_rows 1 m = Spec.horizontal_flip d m.
Proof.
  intros Hm. unfold cv.flip_rows. cbn [Z.eqb Z.ltb Z.compare].
  apply tabulate_eq.
  - now rewrite length_map.
  - intros r Hr. rewrite (nth_indep _ [] (rev [])) by now rewrite length_map.
    rewrite map_nth, length_rev. now apply rectangular_row.
  - intros r c Hr Hc. unfold Spec.px.
    rewrite (nth_indep (map _ _) [] (rev [])) by now rewrite length_map.
    rewrite map_nth. pose proof (rectangular_row m r Hm Hr) as Hlen.
    rewrite rev_nth by lia. rewrite Hlen. f_equal. lia.
Qed.

Lemma vertical_flip_correct (m : list (list A)) :
  Spec.rectangular m -> cv.flip_rows 0 m = Spec.vertical_flip d m.
Proof.
  intros Hm. unfold cv.flip_rows. cbn [Z.eqb].
  apply tabulate_eq.
  - now rewrite length_rev.
  - intros r Hr. unfold Spec.nrows in Hr. rewrite rev_nth by assumption.
    apply rectangular_row; [assumption|lia].
  - intros r c Hr Hc. unfold Spec.px, Spec.nrows in *.
    rewrite rev_nth by assumption. do 2 f_equal. lia.
Qed.

Lemma flip_both_axes_correct (m : list (list A)) :
  Spec.rectangular m -> cv.flip_rows (-1) m = Spec.flip_both_axes d m.
Proof.
  intros Hm. unfold cv.flip_rows. cbn [Z.eqb Z.ltb Z.compare].
  apply tabulate_eq.
  - now rewrite length_rev, length_map.
  - intros r Hr. unfold Spec.nrows in Hr.
    rewrite rev_nth by now rewrite length_map. rewrite length_map.
    rewrite (nth_indep _ [] (rev [])) by (rewrite length_map; lia).
    rewrite map_nth, length_rev. apply rectangular_row; [assumption|lia].
  - intros r c Hr Hc. unfold Spec.px, Spec.nrows in *.
    rewrite rev_nth by now rewrite length_map. rewrite length_map.
    rewrite (nth_indep _ [] (rev [])) by (rewrite length_map; lia).
    rewrite map_nth.
    assert (Hlen : length (nth (length m - S r) m []) = Spec.ncols m)
      by (apply rectangular_row; [assumption|lia]).
    rewrite rev_nth by lia. rewrite Hlen.
    replace (length m - 1 - r) with (length m - S r) by lia.
    f_equal. lia.
Qed.

Lemma zip_cons_nil (r : list A) : cv.zip_cons r [] = map (fun x => [x]) r.
Proof. induction r as [|x r IH]; cbn; [reflexivity|now rewrite IH]. Qed.

Lemma zip_cons_length (r : list A) (t : list (list A)) :
  length t = length r -> length (cv.zip_cons r t) = length r.
Proof.
  revert t. induction r as [|x r IH]; intros [|y t] Hl; cbn in *;
    try reflexivity; try discriminate.
  f_equal. apply IH. lia.
Qed.

Lemma zip_cons_nth (r : list A) (t : list (list A)) (c : nat) :
  length t = length r -> c < length r ->
  nth c (cv.zip_cons r t) [] = nth c r d :: nth c t [].
Proof.
  revert t c. induction r as [|x r IH]; intros [|y t] c Hl Hc; cbn in *;
    try lia; try discriminate.
  destruct c as [|c]; [reflexivity|]. apply IH; lia.
Qed.

(** The columns of a matrix are the rows of its transpose. *)
Lemma transpose_columns (m : list (list A)) (w : nat) :
  m <> [] -> Forall (fun row => length row = w) m ->
  length (cv.transpose m) = w /\
  forall c, c < w -> nth c (cv.transpose m) [] = map (fun row => nth c row d) m.
Proof.
  induction m as [|r rs IH]; [congruence|]. intros _ Hall.
  inversion Hall as [|? ? Hr Hrs]; subst.
  destruct rs as [|r2 rs'].
  - cbn [cv.transpose]. rewrite zip_cons_nil. split; [now rewrite length_map|].
    intros c Hc. rewrite (nth_indep _ [] [d]) by now rewrite length_map.
    rewrite (map_nth (fun x => [x]) r d c). reflexivity.
  - destruct (IH ltac:(discriminate) Hrs) as [Hlen Hcol].
    change (cv.transpose (r :: r2 :: rs'))
      with (cv.zip_cons r (cv.transpose (r2 :: rs'))).
    split; [now apply zip_cons_length|].
    intros c Hc. rewrite zip_cons_nth by (assumption || lia).
    rewrite Hcol by assumption. reflexivity.
Qed.

Lemma transpose_length (m : list (list A)) :
  Spec.rectangular m -> length (cv.transpose m) = Spec.ncols m.
Proof.
  intros Hm. destruct m as [|r rs] eqn:Hmeq; [reflexivity|]. rewrite <- Hmeq in *.
  assert (Hne : m <> []) by (subst; discriminate).
  apply (transpose_columns m (Spec.ncols m) Hne Hm).
Qed.

Lemma transpose_column (m : list (list A)) (c : nat) :
  Spec.rectangular m -> c < Spec.ncols m ->
  nth c (cv.transpose m) [] = map (fun row => nth c row d) m.
Proof.
  intros Hm Hc.
  assert (Hne : m <> []) by (destruct m; [cbn in Hc; lia|discriminate]).
  now apply (transpose_columns m (Spec.ncols m) Hne Hm).
Qed.

Lemma column_nth (m : list (list A)) (c r : nat) :
  nth r (map (fun row => nth c row d) m) d = nth c (nth r m []) d.
Proof.
  rewrite <- (nth_nil c) at 1.
  exact (map_nth (fun row => nth c row d) m [] r).
Qed.

Lemma rotate_90_clockwise_correct (m : list (list A)) :
  Spec.rectangular m ->
  cv.rotate_rows cv.ROTATE_90_CLOCKWISE m = Spec.rotate_90_clockwise d m.
Proof.
  intros Hm. unfold cv.rotate_rows, cv.flip_rows. cbn [Z.eqb Z.ltb Z.compare].
  apply tabulate_eq.
  - rewrite length_map. now apply transpose_length.
  - intros r Hr. rewrite (nth_indep _ [] (rev []))
      by (rewrite length_map, transpose_length; assumption).
    rewrite map_nth, length_rev, transpose_column by assumption.
    now rewrite length_map.
  - intros r c Hr Hc. unfold Spec.px, Spec.nrows in *.
    rewrite (nth_indep (map _ _) [] (rev []))
      by (rewrite length_map, transpose_length; assumption).
    rewrite map_nth, transpose_column by assumption.
    rewrite rev_nth by now rewrite length_map. rewrite length_map.
    rewrite column_nth. do 2 f_equal. lia.
Qed.

Lemma rotate_90_counter_clockwise_correct (m : list (list A)) :
  Spec.rectangular m ->
  cv.rotate_rows cv.ROTATE_90_COUNTERCLOCKWISE m =
  Spec.rotate_90_counter_clockwise d m.
Proof.
  intros Hm. unfold cv.rotate_rows, cv.flip_rows. cbn [Z.eqb].
  apply tabulate_eq.
  - rewrite length_rev. now apply transpose_length.
  - intros r Hr. rewrite rev_nth by (rewrite transpose_length; assumption).
    rewrite transpose_length by assumption.
    rewrite transpose_column by (assumption || lia).
    now rewrite length_map.
  - intros r c Hr Hc. unfold Spec.px, Spec.nrows in *.
    rewrite rev_nth by (rewrite transpose_length; assumption).
    rewrite transpose_length by assumption.
    rewrite transpose_column by (assumption || lia).
    rewrite column_nth. f_equal. lia.
Qed.

Lemma rotate_rectangular (f : cv.RotateFlags) (m : list (list A)) :
  Spec.rectangular m -> f <> cv.ROTATE_180 -> Spec.rectangular (cv.rotate_rows f m).
Proof.
  intros Hm Hf. destruct f; [| congruence |].
  - rewrite rotate_90_clockwise_correct by assumption. apply tabulate_rectangular.
  - rewrite rotate_90_counter_clockwise_correct by assumption.
    apply tabulate_rectangular.
Qed.

End GeometryFacts.

(** ** The orientation normalizer *)

Lemma with_data_same (m : cv.Mat) : cv.with_data m (cv.data m) = m.
Proof. destruct m; reflexivity. Qed.

Section OrientationFacts.

Variable m : cv.Mat.
Hypothesis Hrect : Spec.rectangular (cv.data m).

Lemma flip_horizontal :
  cv.flip m 1 = cv.with_data m (Spec.horizontal_flip [] (cv.data m)).
Proof. unfold cv.flip. f_equal. now apply horizontal_flip_correct. Qed.

Lemma flip_vertical :
  cv.flip m 0 = cv.with_data m (Spec.vertical_flip [] (cv.data m)).
Proof. unfold cv.flip. f_equal. now apply vertical_flip_correct. Qed.

Lemma flip_both :
  cv.flip m (-1) = cv.with_data m (Spec.flip_both_axes [] (cv.data m)).
Proof. unfold cv.flip. f_equal. now apply flip_both_axes_correct. Qed.

Lemma rotate_clockwise :
  cv.rotate m cv.ROTATE_90_CLOCKWISE =
  cv.with_data m (Spec.rotate_90_clockwise [] (cv.data m)).
Proof. unfold cv.rotate. f_equal. now apply rotate_90_clockwise_correct. Qed.

Lemma rotate_counter_clockwise :
  cv.rotate m cv.ROTATE_90_COUNTERCLOCKWISE =
  cv.with_data m (Spec.rotate_90_counter_clockwise [] (cv.data m)).
Proof. unfold cv.rotate. f_equal. now apply rotate_90_counter_clockwise_correct. Qed.

Lemma rotate_clockwise_then_flip :
  cv.flip (cv.rotate m cv.ROTATE_90_CLOCKWISE) 1 =
  cv.with_data m (Spec.horizontal_flip [] (Spec.rotate_90_clockwise [] (cv.data m))).
Proof.
  rewrite rotate_clockwise. unfold cv.flip, cv.with_data. cbn. f_equal.
  apply horizontal_flip_correct, tabulate_rectangular.
Qed.

Lemma rotate_counter_clockwise_then_flip :
  cv.flip (cv.rotate m cv.ROTATE_90_COUNTERCLOCKWISE) 1 =
  cv.with_data m (Spec.horizontal_flip []
                    (Spec.rotate_90_counter_clockwise [] (cv.data m))).
Proof.
  rewrite rotate_counter_clockwise. unfold cv.flip, cv.with_data. cbn. f_equal.
  apply horizontal_flip_correct, tabulate_rectangular.
Qed.

End OrientationFacts.

Lemma rotate_image_run (E : Env) (o : OpencvImage) :
  Spec.rectangular (cv.data (image o)) ->
  state_of (rotate_image E o) =
  set_image (cv.with_data (image o)
               (Spec.orientation_table [] (read_exif_rotation E (path o))
                                       (cv.data (image o)))) o.
Proof.
  intros Hrect. unfold rotate_image, bind, this, state_of.
  cbv beta iota zeta.
  assert (Hno : o = set_image (cv.with_data (image o) (cv.data (image o))) o)
    by now rewrite with_data_same, set_image_same.
  destruct (read_exif_rotation E (path o)) as [value|]; cbn [Spec.orientation_table];
    [|exact Hno].
  destruct value as [|p|p]; try exact Hno.
  do 4 (try destruct p as [p|p|]); try exact Hno;
    cbn -[cv.flip cv.rotate Spec.horizontal_flip Spec.vertical_flip
          Spec.flip_both_axes Spec.rotate_90_clockwise
          Spec.rotate_90_counter_clockwise];
    first [ now rewrite rotate_clockwise_then_flip
          | now rewrite rotate_counter_clockwise_then_flip
          | now rewrite flip_horizontal
          | now rewrite flip_vertical
          | now rewrite flip_both
          | now rewrite rotate_clockwise
          | now rewrite rotate_counter_clockwise ].
Qed.

(** C2. For every orientation tag the normalizer applies the transform of the
    table of section 4.1 to the buffer (tags 2 to 8 as listed there, nothing
    for an absent tag, for 1 and for any other value), leaving the rest of the
    object alone; and what it does for tag 3 is what it does for tag 2
    followed by what it does for tag 4. *)
Theorem rotate_image_applies_orientation_table :
  forall (E : Env) (o : OpencvImage),
    Spec.rectangular (cv.data (image o)) ->
    state_of (rotate_image E o) =
      set_image (cv.with_data (image o)
                   (Spec.orientation_table [] (read_exif_rotation E (path o))
                                           (cv.data (image o)))) o /\
    state_of (rotate_image (with_exif (Some 3) E) o) =
      state_of (rotate_image (with_exif (Some 4) E)
                  (state_of (rotate_image (with_exif (Some 2) E) o))).
Proof.
  intros E o Hrect. split; [now apply rotate_image_run|].
  unfold rotate_image, bind, this, state_of. cbn.
  unfold cv.flip, cv.with_data, cv.flip_rows. cbn. reflexivity.
Qed.

Lemma rotate_image_applies_orientation_table_witness :
  Spec.rectangular (cv.data (image Sample.turned)) /\
  cv.data (image (state_of (rotate_image Sample.turned_env Sample.turned))) =
    [[[10; 11; 12]; [1; 2; 3]]; [[13; 14; 15]; [4; 5; 6]]; [[16; 17; 18]; [7; 8; 9]]].
Proof.
  assert (Hrect : Spec.rectangular (cv.data (image Sample.turned)))
    by (repeat constructor).
  split; [exact Hrect|].
  rewrite (proj1 (rotate_image_applies_orientation_table
                    Sample.turned_env Sample.turned Hrect)).
  reflexivity.
Defined.

(** ** Rounding up to a multiple *)

Lemma round_up_multiple (n m : Z) :
  0 < m -> (m | round_up n m) /\ n <= round_up n m < n + m.
Proof.
  intros Hm. unfold round_up.
  destruct (Z.leb_spec m 0) as [Hle|_]; [lia|].
  pose proof (Z.mod_pos_bound n m Hm) as Hb.
  pose proof (Z.div_mod n m ltac:(lia)) as Hd.
  destruct (Z.eqb_spec (n mod m) 0) as [H0|Hn0].
  - split; [|lia]. exists (n / m). lia.
  - split; [|lia]. exists (n / m + 1). lia.
Qed.

Lemma rem_2_odd (n : Z) : negb (Z.rem n 2 =? 0) = Z.odd n.
Proof.
  rewrite Z.rem_mod by lia. rewrite Zmod_odd.
  assert (Habs : Z.odd (Z.abs n) = Z.odd n) by (destruct n; reflexivity).
  rewrite Habs. destruct (Z.odd n) eqn:Ho.
  - destruct n; cbn in *; try discriminate; reflexivity.
  - now rewrite Z.mul_0_r.
Qed.

(** The stand-in resampling delivers the size asked for. *)
Lemma pick_length {A} (src : list A) (n : nat) (d : A) :
  List.length (Sample.pick src n d) = n.
Proof. unfold Sample.pick. now rewrite length_map, length_seq. Qed.

Lemma nearest_size (m : cv.Mat) (w h : Z) :
  0 < w -> 0 < h ->
  cv.cols (Sample.nearest m w h) = w /\ cv.rows (Sample.nearest m w h) = h.
Proof.
  intros Hw Hh. unfold cv.cols, cv.rows, Sample.nearest. cbn [cv.data cv.with_data].
  split.
  - destruct (Z.to_nat h) as [|k] eqn:Hk; [lia|].
    unfold Sample.pick at 2. rewrite <- cons_seq. cbn [map hd].
    rewrite pick_length. lia.
  - rewrite length_map, pick_length. lia.
Qed.

Lemma sample_resize_to_size (img : cv.Mat) (tag : option Z) (sizes : Z * Z)
      (w : cv.WriteOutcome) (f : Flags) :
  resize_to_size (Sample.env_of img tag sizes w f).
Proof. intros m w' h' Hw Hh. now apply nearest_size. Qed.

(** ** The even-dimension correction *)

Lemma resize_request_rounding (E : Env) (o : OpencvImage) :
  in_cache o = false ->
  degenerate (resolved E o) = true ->
  needs_scaling (flags o) = true ->
  Z.odd (width o) = true \/ Z.odd (height o) = true ->
  resize_request E o = Some (round_up (width o) (scale_factor (flags o)),
                             round_up (height o) (scale_factor (flags o))) /\
  accelerated E o = false.
Proof.
  intros Hc Hd Hn Ho. unfold resize_request, accelerated, odd_sized.
  rewrite Hc, Hd, Hn, !rem_2_odd. cbn [andb negb].
  replace (Z.odd (width o) || Z.odd (height o)) with true; [split; reflexivity|].
  destruct Ho as [-> | ->]; [reflexivity|now rewrite orb_true_r].
Qed.

(** C1, as stated, fails: for a picture of 101x2 pixels that is not from the
    cache, with a degenerate target, the even-dimension flag set and scale
    factor 2, the width becomes 102 through a call of the library's resize. *)
Lemma even_correction_calls_resize :
  in_cache Sample.odd_object = false /\
  degenerate (resolved Sample.even_env Sample.odd_object) = true /\
  needs_scaling (flags Sample.odd_object) = true /\
  width Sample.odd_object = 101 /\
  width (state_of (resize_image Sample.even_env Sample.odd_object)) = 102 /\
  calls is_resize (trace_of (resize_image Sample.even_env Sample.odd_object)) = 1%nat /\
  In (Resize 102 2) (trace_of (resize_image Sample.even_env Sample.odd_object)).
Proof.
  repeat split; try reflexivity. vm_compute. right. left. reflexivity.
Qed.

(** C1, amended. For a picture that is not from the cache, whose resolved
    target is degenerate, with the even-dimension flag set and an odd width
    or height, [resize_image] makes one call of the library's resize, to the
    width and the height each rounded up to the next multiple of the scale
    factor, and hands the result to the cache writer; with a resize that
    delivers the size asked for, these are the new width and height. *)
Theorem even_correction_resizes_to_multiples :
  forall (E : Env) (o : OpencvImage),
    resize_to_size E ->
    in_cache o = false ->
    degenerate (resolved E o) = true ->
    needs_scaling (flags o) = true ->
    Z.odd (width o) = true \/ Z.odd (height o) = true ->
    0 < scale_factor (flags o) ->
    0 < width o -> 0 < height o ->
    let W := round_up (width o) (scale_factor (flags o)) in
    let H := round_up (height o) (scale_factor (flags o)) in
    image (state_of (resize_image E o)) = resize E (image o) W H /\
    trace_of (resize_image E o) =
      Log debug "Resizing image" :: Resize W H ::
        cache_events E o (resize E (image o) W H) /\
    width (state_of (resize_image E o)) = W /\
    height (state_of (resize_image E o)) = H /\
    (scale_factor (flags o) | W) /\ width o <= W < width o + scale_factor (flags o) /\
    (scale_factor (flags o) | H) /\ height o <= H < height o + scale_factor (flags o).
Proof.
  intros E o Hsize Hc Hd Hn Ho Hsf Hw Hh W H.
  destruct (resize_image_run E o) as (Himg & Htr & _).
  destruct (resize_request_rounding E o Hc Hd Hn Ho) as [Hreq Hacc].
  unfold resized_image in Himg. unfold resize_trace in Htr.
  rewrite Hreq in Himg, Htr. rewrite Hacc in Htr. cbn [app] in Htr.
  rewrite app_nil_r in Htr.
  destruct (round_up_multiple (width o) (scale_factor (flags o)) Hsf) as [HdW HbW].
  destruct (round_up_multiple (height o) (scale_factor (flags o)) Hsf) as [HdH HbH].
  fold W in HdW, HbW, Himg, Htr. fold H in HdH, HbH, Himg, Htr.
  destruct (Hsize (image o) W H ltac:(lia) ltac:(lia)) as [Hcols Hrows].
  unfold width, height in *. rewrite Himg.
  repeat split; try assumption; lia.
Qed.

Lemma even_correction_resizes_to_multiples_witness :
  width (state_of (resize_image Sample.even_env Sample.odd_object)) = 102 /\
  trace_of (resize_image Sample.even_env Sample.odd_object) =
    [Log debug "Resizing image"; Resize 102 2;
     Imwrite "/tmp/cache/a.png" (Sample.nearest Sample.odd_wide 102 2);
     Log debug "Saved resized image"].
Proof.
  destruct (even_correction_resizes_to_multiples
              Sample.even_env Sample.odd_object
              (sample_resize_to_size _ _ _ _ _)
              eq_refl eq_refl eq_refl (or_introl eq_refl)
              ltac:(reflexivity) ltac:(reflexivity) ltac:(reflexivity))
    as (_ & Htr & Hw & _).
  split; [exact Hw|exact Htr].
Defined.

(** ** Counting events *)

Lemma calls_app (p : Event -> bool) (a b : list Event) :
  calls p (a ++ b) = (calls p a + calls p b)%nat.
Proof. unfold calls. now rewrite filter_app, length_app. Qed.

Lemma calls_none (p q : Event -> bool) (t : list Event) :
  (forall e, q e = true -> p e = false) ->
  Forall (fun e => q e = true) t -> calls p t = 0%nat.
Proof.
  intros Hpq Hall. unfold calls. induction Hall as [|e t He _ IH]; [reflexivity|].
  cbn. now rewrite (Hpq e He).
Qed.

Lemma rotate_image_trace (E : Env) (o : OpencvImage) :
  Forall (fun e => is_geometry e = true) (trace_of (rotate_image E o)).
Proof.
  unfold rotate_image, bind, this, trace_of. cbv beta iota zeta.
  destruct (read_exif_rotation E (path o)) as [value|]; [|constructor].
  repeat match goal with
         | |- context [if ?b then _ else _] => destruct b
         end; cbn; repeat constructor.
Qed.

Lemma rotate_image_fields (E : Env) (o : OpencvImage) :
  flags (state_of (rotate_image E o)) = flags o /\
  dims (state_of (rotate_image E o)) = dims o /\
  path (state_of (rotate_image E o)) = path o /\
  in_cache (state_of (rotate_image E o)) = in_cache o.
Proof.
  unfold rotate_image, bind, this, state_of. cbv beta iota zeta.
  destruct (read_exif_rotation E (path o)) as [value|]; [|now cbn].
  repeat match goal with
         | |- context [if ?b then _ else _] => destruct b
         end; now cbn.
Qed.

Lemma resize_trace_no_colorize (E : Env) (o : OpencvImage) (p : Event -> bool) :
  (forall e, is_colorize e = false -> is_geometry e = false -> p e = false) ->
  calls p (resize_trace E o) = 0%nat.
Proof.
  intros Hp. unfold resize_trace, cache_events.
  destruct (resize_request E o) as [[w h]|]; [|reflexivity].
  unfold calls.
  destruct (accelerated E o), (no_cache (flags o));
    try destruct (imwrite E _ _); cbn; rewrite ?Hp; reflexivity.
Qed.

Lemma colorize_trace_premultiply_once (gl : bool) (out : string) (m : cv.Mat) :
  (calls is_premultiply (colorize_trace gl out m) <= 1)%nat.
Proof.
  unfold colorize_trace. cbv zeta. rewrite !calls_app.
  repeat match goal with
         | |- context [if ?b then _ else _] => destruct b
         end; cbn; lia.
Qed.

(** The trace of a construction that gets past the decoder. *)
Lemma construction_trace (E : Env) (o : OpencvImage) :
  let o1 := state_of (rotate_image E o) in
  let o2 := state_of (resize_image E o1) in
  trace_of ((rotate_image E ;; process_image E) o) =
    trace_of (rotate_image E o) ++ resize_trace E o1 ++
    colorize_trace (ENABLE_OPENGL E && use_opengl (flags o)) (output (flags o)) (image o2).
Proof.
  cbv zeta. rewrite trace_of_bind. f_equal.
  destruct (process_image_run E (state_of (rotate_image E o))) as [_ Htr].
  cbv zeta in Htr. rewrite Htr.
  destruct (resize_image_run E (state_of (rotate_image E o))) as (_ & -> & _).
  destruct (rotate_image_fields E o) as (-> & _). reflexivity.
Qed.

Lemma colorize_trace_events (gl : bool) (out : string) (m : cv.Mat) :
  Forall (fun e => is_colorize e || is_geometry e = true) (colorize_trace gl out m).
Proof.
  unfold colorize_trace. cbv zeta.
  repeat match goal with
         | |- context [if ?b then _ else _] => destruct b
         end; cbn; repeat constructor.
Qed.

(** ** A construction that a library call ends *)

Lemma no_raise (q : Event -> bool) (t : list Event) :
  (forall e, q e = true -> raises e = false) ->
  Forall (fun e => q e = true) t -> existsb raises t = false.
Proof.
  intros Hq Hall. induction Hall as [|e t He _ IH]; [reflexivity|].
  cbn. now rewrite (Hq e He).
Qed.

Lemma before_raise_app (a b : list Event) :
  existsb raises a = false -> before_raise (a ++ b) = a ++ before_raise b.
Proof.
  induction a as [|e a IH]; [reflexivity|]. cbn.
  destruct (raises e); [discriminate|]. cbn. intros Ha. now rewrite IH.
Qed.

Lemma resize_trace_raises (E : Env) (o : OpencvImage) :
  existsb raises (resize_trace E o) = resize_rejected E o.
Proof.
  unfold resize_trace, resize_rejected, cache_events.
  destruct (resize_request E o) as [[w h]|]; [|reflexivity].
  rewrite existsb_app.
  destruct (accelerated E o), (no_cache (flags o));
    try destruct (imwrite E _ _); cbn; rewrite ?orb_false_r; reflexivity.
Qed.

Lemma resize_trace_before_raise (E : Env) (o : OpencvImage) (t : list Event) :
  resize_rejected E o = true ->
  before_raise (resize_trace E o ++ t) = resize_prelude E o.
Proof.
  unfold resize_trace, resize_rejected, resize_prelude.
  destruct (resize_request E o) as [[w h]|]; [|discriminate].
  intros Hrej. destruct (accelerated E o); cbn; now rewrite Hrej.
Qed.

(** The two ways a construction ends. *)
Lemma construction_empty (E : Env) (new_dims : Dimensions) (filename : string)
      (cached : bool) :
  cv.empty (imread E filename) = true ->
  OpencvImage_new E new_dims filename cached =
    (inl (runtime_error ""), [Imread filename; Log warn "unable to read image"]).
Proof.
  intros Hempty. unfold OpencvImage_new. cbv zeta.
  change (image (decoded E new_dims filename cached)) with (imread E filename).
  now rewrite Hempty.
Qed.

Lemma construction_decoded (E : Env) (new_dims : Dimensions) (filename : string)
      (cached : bool) :
  cv.empty (imread E filename) = false ->
  let o0 := decoded E new_dims filename cached in
  let r := (rotate_image E ;; process_image E) o0 in
  OpencvImage_new E new_dims filename cached =
    if resize_rejected E (state_of (rotate_image E o0)) then
      (inl (cv_Exception "resize"),
       [Imread filename; Log info "loading file {}"] ++
       trace_of (rotate_image E o0) ++ resize_prelude E (state_of (rotate_image E o0)))
    else
      (inr (state_of r), [Imread filename; Log info "loading file {}"] ++ trace_of r).
Proof.
  intros Hne. cbv zeta. unfold OpencvImage_new. cbv zeta.
  change (image (decoded E new_dims filename cached)) with (imread E filename).
  rewrite Hne, construction_trace. cbv zeta.
  set (o0 := decoded E new_dims filename cached).
  assert (Hrot : existsb raises (trace_of (rotate_image E o0)) = false).
  { apply (no_raise is_geometry); [intros []; cbn; congruence|apply rotate_image_trace]. }
  set (ct := colorize_trace _ _ _).
  assert (Hct : existsb raises ct = false).
  { apply (no_raise (fun e => is_colorize e || is_geometry e));
      [intros []; cbn; congruence|apply colorize_trace_events]. }
  rewrite !existsb_app, Hrot, Hct, resize_trace_raises, orb_false_r. cbn [orb].
  destruct (resize_rejected E (state_of (rotate_image E o0))) eqn:Hrej; [|reflexivity].
  rewrite before_raise_app by exact Hrot.
  now rewrite resize_trace_before_raise by exact Hrej.
Qed.

Lemma resize_prelude_calls (E : Env) (o : OpencvImage) (p : Event -> bool) :
  p CopyTo = false -> (forall s, p (Log debug s) = false) ->
  calls p (resize_prelude E o) = 0%nat.
Proof.
  intros Hc Hl. unfold resize_prelude, calls.
  destruct (accelerated E o); cbn; now rewrite ?Hc, ?Hl.
Qed.

(** ** Alpha premultiplication *)

Lemma uint8_t_range (v : Z) : 0 <= uint8_t v <= 255.
Proof. unfold uint8_t. pose proof (Z.mod_pos_bound v 256). lia. Qed.

Lemma premultiply_sample (c a : Z) :
  0 <= c <= 255 -> 0 <= a <= 255 ->
  uint8_t ((c * uint8_t a) ÷ uint8_t 255) = (c * a) / 255.
Proof.
  intros Hc Ha. unfold uint8_t.
  rewrite (Z.mod_small a 256) by lia. change (255 mod 256) with 255.
  rewrite Z.quot_div_nonneg by nia.
  apply Z.mod_small. split; [apply Z.div_pos; nia|].
  apply Z.div_lt_upper_bound; nia.
Qed.

(** C3. On 8-bit samples the premultiplication replaces each of the three
    colour channels by (channel * alpha) / 255, in integer division, and keeps
    alpha; there is a four-channel buffer on which two applications differ
    from one; and no construction applies the step more than once. *)
Theorem premultiply_not_idempotent_and_applied_once :
  (forall b g r a : Z,
      premultiply [uint8_t b; uint8_t g; uint8_t r; uint8_t a] =
      Spec.premultiplied [uint8_t b; uint8_t g; uint8_t r; uint8_t a]) /\
  (exists m : cv.Mat,
      cv.channels m = 4 /\ cv.depth m = cv.CV_8U /\
      cv.forEach (cv.forEach m premultiply) premultiply <> cv.forEach m premultiply) /\
  (forall (E : Env) (new_dims : Dimensions) (filename : string) (cached : bool),
      (calls is_premultiply (snd (OpencvImage_new E new_dims filename cached)) <= 1)%nat).
Proof.
  split; [|split].
  - intros b g r a. unfold premultiply, Spec.premultiplied.
    pose proof (uint8_t_range b). pose proof (uint8_t_range g).
    pose proof (uint8_t_range r). pose proof (uint8_t_range a).
    now rewrite !premultiply_sample by assumption.
  - exists Sample.veil. repeat split. discriminate.
  - intros E new_dims filename cached.
    destruct (cv.empty (imread E filename)) eqn:Hempty.
    { rewrite construction_empty by exact Hempty. cbn. lia. }
    rewrite construction_decoded by exact Hempty. cbv zeta.
    destruct (resize_rejected E _); cbn [snd].
    { rewrite !calls_app, resize_prelude_calls by reflexivity.
      rewrite (calls_none is_premultiply is_geometry (trace_of (rotate_image E _)))
        by (try apply rotate_image_trace; intros []; cbn; congruence).
      cbn. lia. }
    rewrite construction_trace. rewrite !calls_app.
    rewrite (calls_none is_premultiply is_geometry (trace_of (rotate_image E _)))
      by (try apply rotate_image_trace; intros []; cbn; congruence).
    rewrite resize_trace_no_colorize by (intros []; cbn; congruence).
    cbn [calls filter List.length is_premultiply Nat.add].
    apply colorize_trace_premultiply_once.
Qed.

(** ** The 16-bit to 8-bit conversion *)

(** Times 1/256, to the nearest integer, a tie to the even one, and clamped
    to a byte. *)
Lemma convert_sample_nearest (v : Z) :
  0 <= v <= 65535 ->
  exists k : Z,
    cv.convert_sample_8U (1 # 256) v = Z.min 255 k /\
    Z.abs (256 * k - v) <= 128 /\
    (Z.abs (256 * k - v) = 128 -> Z.even k = true).
Proof.
  intros Hv. unfold cv.convert_sample_8U, cv.cvRound, cv.saturate_uchar.
  unfold Qfloor, Qcompare, Qminus, Qplus, Qopp, Qmult, inject_Z. cbn [Qnum Qden].
  change (Z.pos (1 * 256)) with 256. change (Z.pos (1 * 256 * 1)) with 256.
  rewrite !Z.mul_1_r, Z.mul_1_l.
  pose proof (Z.div_mod v 256 ltac:(lia)) as Hdm.
  pose proof (Z.mod_pos_bound v 256 ltac:(lia)) as Hmod.
  assert (Hq : 0 <= v / 256 <= 255).
  { split; [apply Z.div_pos; lia|]. apply Z.lt_succ_r, Z.div_lt_upper_bound; lia. }
  set (q := v / 256) in *.
  destruct (Z.compare_spec ((v + - q * 256) * 2) 256) as [He|Hl|Hg].
  - destruct (Z.even q) eqn:Hev.
    + exists q. repeat split; try lia. intros _. exact Hev.
    + exists (q + 1). repeat split; try lia.
      intros _. rewrite Z.even_add, Hev. reflexivity.
  - exists q. repeat split; lia.
  - exists (q + 1). repeat split; lia.
Qed.

Lemma convert_sample_byte (alpha : Q) (v : Z) :
  0 <= cv.convert_sample_8U alpha v <= 255.
Proof. unfold cv.convert_sample_8U, cv.saturate_uchar. lia. Qed.

(** C4, as stated, fails: intensity 200 of a 16-bit picture becomes 1, where
    multiplying by 1/256 and truncating gives 0. *)
Lemma downscale_is_not_truncation :
  cv.depth (image Sample.dim_object) = cv.CV_16U /\
  cv.data (image Sample.dim_object) = [[[200]]] /\
  cv.data (to_8bit (image Sample.dim_object)) = [[[1]]] /\
  cv.data (image (state_of (process_image Sample.dim_env Sample.dim_object))) =
    [[[1; 1; 1; 255]]] /\
  cv.convert_sample_8U (1 # 256) 200 <> Spec.truncating_downscale 200.
Proof. repeat split. discriminate. Qed.

(** C4, amended. A 16-bit picture is brought to 8 bits by multiplying every
    sample by 1/256, rounding to the nearest integer (a tie to the even one)
    and clamping to 0..255; the largest 16-bit intensity, 65535, rounds to
    256 and is clamped to exactly 255. *)
Theorem downscale_rounds_to_nearest_and_saturates :
  forall (E : Env) (o : OpencvImage) (v : Z),
    cv.depth (image (state_of (resize_image E o))) = cv.CV_16U ->
    0 <= v <= 65535 ->
    let resized := image (state_of (resize_image E o)) in
    let gl := ENABLE_OPENGL E && use_opengl (flags o) in
    image (state_of (process_image E o)) =
      backend_stage (output (flags o))
        (gray_stage (opengl_stage gl
           (alpha_stage
              (cv.mkMat cv.CV_8U (cv.channels resized)
                 (map (map (map (cv.convert_sample_8U (1 # 256)))) (cv.data resized)))))) /\
    (exists k : Z,
        cv.convert_sample_8U (1 # 256) v = Z.min 255 k /\
        Z.abs (256 * k - v) <= 128 /\
        (Z.abs (256 * k - v) = 128 -> Z.even k = true)) /\
    0 <= cv.convert_sample_8U (1 # 256) v <= 255 /\
    cv.cvRound (inject_Z 65535 * (1 # 256)) = 256 /\
    cv.convert_sample_8U (1 # 256) 65535 = 255.
Proof.
  intros E o v Hd Hv resized gl. rewrite process_image_image.
  fold resized gl. unfold colorize, to_8bit. fold resized in Hd. rewrite Hd.
  cbn [cv.Depth_eqb].
  repeat split; try reflexivity; try apply convert_sample_byte.
  now apply convert_sample_nearest.
Qed.

Lemma downscale_rounds_to_nearest_and_saturates_witness :
  cv.depth (image (state_of (resize_image Sample.bright_env Sample.bright_object))) =
    cv.CV_16U /\
  cv.data (image (state_of (process_image Sample.bright_env Sample.bright_object))) =
    [[[255; 255; 255; 255]; [2; 2; 2; 255]; [0; 0; 0; 255]]].
Proof.
  split; [reflexivity|].
  rewrite (proj1 (downscale_rounds_to_nearest_and_saturates
                    Sample.bright_env Sample.bright_object 65535
                    eq_refl ltac:(lia))).
  reflexivity.
Defined.

(** ** The backend colorizer *)

Section PixelFacts.

Variable n : Z.

Lemma pixels_map (f : cv.Pixel -> cv.Pixel) (k : Z) (d : list (list cv.Pixel)) :
  (forall p, Z.of_nat (List.length p) = n -> Z.of_nat (List.length (f p)) = k) ->
  cv.pixels_of_size n d -> cv.pixels_of_size k (map (map f) d).
Proof.
  intros Hf Hd. unfold cv.pixels_of_size in *.
  induction Hd as [|row d Hrow _ IH]; cbn; constructor; [|exact IH].
  induction Hrow as [|p row Hp _ IHrow]; cbn; constructor; auto.
Qed.

Lemma pixels_rev (d : list (list cv.Pixel)) :
  cv.pixels_of_size n d -> cv.pixels_of_size n (rev d).
Proof. unfold cv.pixels_of_size. apply Forall_rev. Qed.

Lemma pixels_map_ext (f g : cv.Pixel -> cv.Pixel) (d : list (list cv.Pixel)) :
  (forall p, Z.of_nat (List.length p) = n -> f p = g p) ->
  cv.pixels_of_size n d -> map (map f) d = map (map g) d.
Proof.
  intros Hfg Hd. unfold cv.pixels_of_size in *.
  induction Hd as [|row d Hrow _ IH]; cbn; [reflexivity|]. f_equal; [|exact IH].
  induction Hrow as [|p row Hp _ IHrow]; cbn; [reflexivity|].
  f_equal; auto.
Qed.

End PixelFacts.

Lemma premultiply_length (p : cv.Pixel) :
  List.length (premultiply p) = List.length p.
Proof. destruct p as [|? [|? [|? [|? [|? ?]]]]]; reflexivity. Qed.

Lemma to_8bit_shape (m : cv.Mat) :
  cv.channels (to_8bit m) = cv.channels m /\
  cv.depth (to_8bit m) = cv.CV_8U /\
  (cv.uniform m -> cv.uniform (to_8bit m)).
Proof.
  unfold to_8bit. destruct m as [[|] c d]; cbn; repeat split; auto.
  unfold cv.uniform. cbn. apply pixels_map. intros p Hp.
  now rewrite length_map.
Qed.

Lemma alpha_stage_shape (m : cv.Mat) :
  cv.channels (alpha_stage m) = cv.channels m /\
  cv.depth (alpha_stage m) = cv.depth m /\
  (cv.uniform m -> cv.uniform (alpha_stage m)).
Proof.
  unfold alpha_stage. destruct (cv.channels m =? 4); repeat split; auto.
  unfold cv.uniform. cbn. apply pixels_map. intros p Hp.
  now rewrite premultiply_length.
Qed.

Lemma opengl_stage_shape (gl : bool) (m : cv.Mat) :
  cv.channels (opengl_stage gl m) = cv.channels m /\
  cv.depth (opengl_stage gl m) = cv.depth m /\
  (cv.uniform m -> cv.uniform (opengl_stage gl m)).
Proof.
  unfold opengl_stage. destruct gl; repeat split; auto.
  unfold cv.uniform. cbn. apply pixels_rev.
Qed.

Lemma map_map_map {A B C} (f : B -> C) (g : A -> B) (d : list (list A)) :
  map (map f) (map (map g) d) = map (map (fun p => f (g p))) d.
Proof. rewrite map_map. apply map_ext. intros row. apply map_map. Qed.

Lemma map_map_same {A} (d : list (list A)) : map (map (fun p => p)) d = d.
Proof. rewrite <- (map_id d) at 2. apply map_ext. intros row. apply map_id. Qed.

Ltac pixel_cases p H :=
  destruct p as [|? [|? [|? [|? [|? ?]]]]]; cbn in H; try lia; try reflexivity.

(** Gray expansion and backend conversion of an 8-bit buffer of one,
    three or four channels. *)
Lemma backend_stage_layout (b : Spec.Backend) (m : cv.Mat) :
  cv.depth m = cv.CV_8U ->
  cv.uniform m ->
  cv.channels m = 1 \/ cv.channels m = 3 \/ cv.channels m = 4 ->
  let L := Spec.final_layout b (cv.channels m) in
  let final := backend_stage (Spec.backend_name b) (gray_stage m) in
  cv.channels final = Spec.layout_channels L /\
  cv.depth final = cv.CV_8U /\
  cv.data final = map (map (fun p => Spec.encode L (Spec.color_of p))) (cv.data m).
Proof.
  intros Hd Hu Hc. destruct m as [dp c d]. cbn in Hd, Hc. subst dp.
  unfold cv.uniform in Hu. cbn in Hu.
  destruct Hc as [-> | [-> | ->]]; destruct b; cbn;
    (split; [reflexivity|split; [reflexivity|]]);
    rewrite ?map_map_map;
    match goal with
    | |- ?l = map (map _) ?l => rewrite <- (map_map_same l) at 1
    | _ => idtac
    end;
    match goal with
    | Hsize : cv.pixels_of_size ?k _ |- _ => apply (pixels_map_ext k); [|exact Hsize]
    end;
    intros p Hp; pixel_cases p Hp.
Qed.

(** C5. For a buffer of one, three or four channels and each of the five
    backends, the final buffer has the layout of the table of section 4.5,
    step 4: BGRA for x11, wayland and chafa; for kitty RGB on a three-channel
    input and RGBA otherwise; RGB for sixel.  Each final pixel encodes, in
    that layout, the colour of the 8-bit (and, with four channels,
    premultiplied) pixel it comes from, where a gray or BGR pixel stands for a
    fully opaque colour. *)
Theorem final_layout_matches_backend_table :
  forall (E : Env) (o : OpencvImage) (b : Spec.Backend),
    output (flags o) = Spec.backend_name b ->
    cv.uniform (image (state_of (resize_image E o))) ->
    cv.channels (image (state_of (resize_image E o))) = 1 \/
    cv.channels (image (state_of (resize_image E o))) = 3 \/
    cv.channels (image (state_of (resize_image E o))) = 4 ->
    let resized := image (state_of (resize_image E o)) in
    let gl := ENABLE_OPENGL E && use_opengl (flags o) in
    let L := Spec.final_layout b (cv.channels resized) in
    let final := image (state_of (process_image E o)) in
    cv.channels final = Spec.layout_channels L /\
    cv.depth final = cv.CV_8U /\
    cv.data final =
      map (map (fun p => Spec.encode L (Spec.color_of p)))
          (cv.data (opengl_stage gl (alpha_stage (to_8bit resized)))).
Proof.
  intros E o b Hout Hu Hc resized gl L final.
  unfold final. rewrite process_image_image. fold resized gl. rewrite Hout.
  unfold colorize.
  destruct (to_8bit_shape resized) as (Hc1 & Hd1 & Hu1).
  destruct (alpha_stage_shape (to_8bit resized)) as (Hc2 & Hd2 & Hu2).
  destruct (opengl_stage_shape gl (alpha_stage (to_8bit resized))) as (Hc3 & Hd3 & Hu3).
  assert (Hch : cv.channels (opengl_stage gl (alpha_stage (to_8bit resized))) =
                cv.channels resized) by congruence.
  unfold L. rewrite <- Hch.
  apply backend_stage_layout.
  - congruence.
  - auto.
  - rewrite Hch. exact Hc.
Qed.

Lemma final_layout_matches_backend_table_witness :
  cv.channels (image (state_of (process_image Sample.turned_env Sample.turned))) = 3 /\
  cv.data (image (state_of (process_image Sample.turned_env Sample.turned))) =
    [[[3; 2; 1]; [6; 5; 4]]; [[12; 11; 10]; [15; 14; 13]]].
Proof.
  assert (Hu : cv.uniform (image (state_of (resize_image Sample.turned_env Sample.turned))))
    by (repeat constructor).
  destruct (final_layout_matches_backend_table
              Sample.turned_env Sample.turned Spec.kitty eq_refl Hu
              (or_intror (or_introl eq_refl)))
    as (Hch & _ & Hdata).
  split; [exact Hch|exact Hdata].
Defined.

(** ** Centring the origin *)

(** Half the size in cells, rounded down, without rationals. *)
Lemma half_cells_floor (w fw : Z) :
  0 < fw -> Qfloor (inject_Z w / inject_Z fw / (2 # 1)) = w / (2 * fw).
Proof.
  intros Hfw. destruct fw as [|p|p]; try lia.
  unfold Qdiv, Qmult, Qinv, inject_Z, Qfloor. cbn [Qnum Qden].
  rewrite !Z.mul_1_r. f_equal. cbn [Pos.mul]. lia.
Qed.

(** C6. With origin centring requested, [process_image] moves the origin
    left and up by half the width and half the height of the resized image,
    counted in font cells and rounded down; with cells of 8x16 pixels, an
    image of 80x160 pixels and the origin at (5,5), the origin ends at
    (0,0). *)
Theorem origin_center_moves_origin_by_half_cells :
  forall (E : Env) (o : OpencvImage),
    origin_center (flags o) = true ->
    0 < font_width (terminal (dims o)) ->
    0 < font_height (terminal (dims o)) ->
    let resized := state_of (resize_image E o) in
    let fw := font_width (terminal (dims o)) in
    let fh := font_height (terminal (dims o)) in
    let d' := dimensions (state_of (process_image E o)) in
    x d' = x (dims o) - Qfloor (inject_Z (width resized) / inject_Z fw / (2 # 1)) /\
    y d' = y (dims o) - Qfloor (inject_Z (height resized) / inject_Z fh / (2 # 1)) /\
    x d' = x (dims o) - width resized / (2 * fw) /\
    y d' = y (dims o) - height resized / (2 * fh) /\
    (fw = 8 -> fh = 16 -> width resized = 80 -> height resized = 160 ->
     x (dims o) = 5 -> y (dims o) = 5 -> x d' = 0 /\ y d' = 0).
Proof.
  intros E o Hoc Hfw Hfh resized fw fh d'.
  destruct (process_image_run E o) as [Hst _]. cbv zeta in Hst.
  destruct (resize_image_run E o) as (_ & _ & Hdims & Hflags & _).
  assert (Hd : d' = centered resized).
  { unfold d', dimensions. rewrite Hst. reflexivity. }
  unfold centered in Hd. fold resized in Hdims, Hflags.
  rewrite Hflags, Hoc, Hdims in Hd. fold fw fh in Hd.
  assert (Hx : x d' = x (dims o) - Qfloor (inject_Z (width resized) / inject_Z fw / (2 # 1)))
    by (rewrite Hd; reflexivity).
  assert (Hy : y d' = y (dims o) - Qfloor (inject_Z (height resized) / inject_Z fh / (2 # 1)))
    by (rewrite Hd; reflexivity).
  rewrite Hx, Hy, !half_cells_floor by assumption.
  split; [reflexivity|]. split; [reflexivity|].
  split; [reflexivity|]. split; [reflexivity|].
  intros -> -> -> -> -> ->. split; reflexivity.
Qed.

Lemma origin_center_moves_origin_by_half_cells_witness :
  width (state_of (resize_image Sample.poster_env Sample.poster_object)) = 80 /\
  height (state_of (resize_image Sample.poster_env Sample.poster_object)) = 160 /\
  x (dimensions Sample.poster_object) = 5 /\ y (dimensions Sample.poster_object) = 5 /\
  x (dimensions (state_of (process_image Sample.poster_env Sample.poster_object))) = 0 /\
  y (dimensions (state_of (process_image Sample.poster_env Sample.poster_object))) = 0.
Proof.
  destruct (origin_center_moves_origin_by_half_cells
              Sample.poster_env Sample.poster_object
              eq_refl ltac:(reflexivity) ltac:(reflexivity))
    as (_ & _ & _ & _ & Hex).
  repeat split; try reflexivity;
    apply (Hex eq_refl eq_refl eq_refl eq_refl eq_refl eq_refl).
Defined.

(** ** The byte size *)

(** C9. The size accessor of a constructed object returns width x height x
    bytes per pixel of the final buffer (channels times bytes per sample),
    as long as that number fits [size_t]. *)
Theorem size_is_width_height_bytes_per_pixel :
  forall (E : Env) (new_dims : Dimensions) (filename : string) (cached : bool)
         (o : OpencvImage),
    fst (OpencvImage_new E new_dims filename cached) = inr o ->
    0 <= width o * height o * (channels o * cv.elemSize1_of (cv.depth (image o))) < 2 ^ 64 ->
    size o = width o * height o * (channels o * cv.elemSize1_of (cv.depth (image o))).
Proof.
  intros E new_dims filename cached o.
  destruct (cv.empty (imread E filename)) eqn:Hempty.
  { rewrite construction_empty by exact Hempty. discriminate. }
  rewrite construction_decoded by exact Hempty. cbv zeta.
  destruct (resize_rejected E _); cbn [fst]; [discriminate|].
  intros Ho. injection Ho as <-. rewrite state_of_bind.
  destruct (process_image_run E (state_of (rotate_image E (decoded E new_dims filename cached))))
    as [-> _].
  cbv zeta. unfold size, width, height, channels. cbn [_size image set_size set_image].
  unfold cv.total, cv.elemSize, size_t.
  match goal with
  | |- context [cv.cols ?m] =>
      generalize (cv.cols m), (cv.rows m), (cv.channels m), (cv.elemSize1_of (cv.depth m))
  end.
  intros c r ch b Hfit.
  replace (r * c * (ch * b)) with (c * r * (ch * b)) by ring.
  now apply Z.mod_small.
Qed.

Lemma size_is_width_height_bytes_per_pixel_witness :
  size (state_of ((rotate_image Sample.turned_env ;; process_image Sample.turned_env)
                    (decoded Sample.turned_env Sample.box "a.png" false))) = 12.
Proof.
  rewrite (size_is_width_height_bytes_per_pixel
             Sample.turned_env Sample.box "a.png" false _ eq_refl).
  - reflexivity.
  - vm_compute. split; [discriminate|reflexivity].
Defined.

(** ** The cache writer *)

(** The object [resize_image] leaves does not depend on what [cv::imwrite]
    does. *)
Lemma resize_image_state_any_write (E : Env) (w : string -> cv.Mat -> cv.WriteOutcome)
      (o : OpencvImage) :
  state_of (resize_image (with_imwrite w E) o) = state_of (resize_image E o).
Proof.
  unfold resize_image, bind, this, update, logger, emit, ret, state_of.
  cbv beta iota zeta. cbn [get_new_sizes ocl_context with_imwrite].
  destruct (in_cache o); [reflexivity|].
  destruct (get_new_sizes E _ _ _ _ _ _) as [nw nh].
  destruct ((nw <=? 0) && (nh <=? 0)).
  - destruct (needs_scaling (flags o)); [|reflexivity].
    destruct (negb _ || negb _); [|reflexivity].
    now rewrite !resize_image_helper_run.
  - destruct (ocl_context E); now rewrite !resize_image_helper_run.
Qed.

Lemma resize_image_state_any_cache (E : Env) (loc : string -> string)
      (w : string -> cv.Mat -> cv.WriteOutcome) (o : OpencvImage) :
  state_of (resize_image (with_cache loc w E) o) = state_of (resize_image E o).
Proof.
  unfold resize_image, bind, this, update, logger, emit, ret, state_of.
  cbv beta iota zeta. cbn [get_new_sizes ocl_context with_cache].
  destruct (in_cache o); [reflexivity|].
  destruct (get_new_sizes E _ _ _ _ _ _) as [nw nh].
  destruct ((nw <=? 0) && (nh <=? 0)).
  - destruct (needs_scaling (flags o)); [|reflexivity].
    destruct (negb _ || negb _); [|reflexivity].
    now rewrite !resize_image_helper_run.
  - destruct (ocl_context E); now rewrite !resize_image_helper_run.
Qed.

Lemma construction_any_write (E : Env) (w : string -> cv.Mat -> cv.WriteOutcome)
      (new_dims : Dimensions) (filename : string) (cached : bool) :
  fst (OpencvImage_new (with_imwrite w E) new_dims filename cached) =
  fst (OpencvImage_new E new_dims filename cached).
Proof.
  destruct (cv.empty (imread E filename)) eqn:Hempty.
  { now rewrite !construction_empty by exact Hempty. }
  rewrite !construction_decoded by exact Hempty. cbv zeta.
  change (decoded (with_imwrite w E) new_dims filename cached)
    with (decoded E new_dims filename cached).
  change (rotate_image (with_imwrite w E)) with (rotate_image E).
  change (resize_rejected (with_imwrite w E)) with (resize_rejected E).
  destruct (resize_rejected E _); [reflexivity|]. cbn [fst]. f_equal.
  rewrite !state_of_bind.
  change (rotate_image (with_imwrite w E)) with (rotate_image E).
  set (s := state_of (rotate_image E (decoded E new_dims filename cached))).
  destruct (process_image_run E s) as [-> _].
  destruct (process_image_run (with_imwrite w E) s) as [-> _].
  cbv zeta. now rewrite resize_image_state_any_write.
Qed.

(** [resize_image_helper] leaves the resized buffer in place whatever the
    cache write does; with caching enabled it calls [cv::imwrite] once, on
    the resized buffer, and an exception raised by the call is caught and
    logged as an error; with caching disabled it makes no such call; and the
    object a construction yields is the same for every behaviour of
    [cv::imwrite]. *)
Lemma cache_write_is_best_effort :
  forall (E : Env) (mat : Buffer) (w h : Z) (o : OpencvImage),
    let resized := resize E (load mat o) w h in
    let save_location := get_cache_file_save_location E (path o) in
    let r := resize_image_helper E mat w h o in
    state_of r = store mat resized o /\
    filter is_imwrite (trace_of r) =
      (if no_cache (flags o) then [] else [Imwrite save_location resized]) /\
    (if no_cache (flags o) then calls is_failure_report (trace_of r) = 0%nat
     else match imwrite E save_location resized with
          | cv.Raises =>
              exists pre, trace_of r =
                          pre ++ [Imwrite save_location resized;
                                  Log error "Could not save image"]
          | cv.Written | cv.NotWritten => calls is_failure_report (trace_of r) = 0%nat
          end) /\
    (forall (wr : string -> cv.Mat -> cv.WriteOutcome)
            (new_dims : Dimensions) (filename : string) (cached : bool),
        fst (OpencvImage_new (with_imwrite wr E) new_dims filename cached) =
        fst (OpencvImage_new E new_dims filename cached)).
Proof.
  intros E mat w h o resized save_location r. unfold r.
  rewrite resize_image_helper_run. fold resized.
  unfold state_of, trace_of, cache_events. cbn [fst snd]. fold save_location.
  split; [reflexivity|].
  split; [|split; [|intros; apply construction_any_write]].
  - destruct (no_cache (flags o)); [reflexivity|].
    destruct (imwrite E save_location resized); reflexivity.
  - destruct (no_cache (flags o)); [reflexivity|].
    destruct (imwrite E save_location resized); try reflexivity.
    exists [Log debug "Resizing image"; Resize w h]. reflexivity.
Qed.

(** C8. A cache write that fails must be logged as a failure.  When
    [cv::imwrite] reports the failure through its return value, the value is
    dropped: with caching enabled, the run of [resize_image_helper] below
    attempts the write once, keeps the resized buffer, and logs the file as
    saved; nothing in its trace reports a failure. *)
Theorem unwritten_cache_file_is_logged_as_saved :
  no_cache (flags Sample.full_disk_object) = false /\
  imwrite Sample.full_disk_env "/tmp/cache/a.png" (Sample.nearest Sample.six 2 2) =
    cv.NotWritten /\
  image (state_of (resize_image_helper Sample.full_disk_env image_buf 2 2
                                       Sample.full_disk_object)) =
    Sample.nearest Sample.six 2 2 /\
  trace_of (resize_image_helper Sample.full_disk_env image_buf 2 2 Sample.full_disk_object) =
    [Log debug "Resizing image"; Resize 2 2;
     Imwrite "/tmp/cache/a.png" (Sample.nearest Sample.six 2 2);
     Log debug "Saved resized image"] /\
  calls is_failure_report
        (trace_of (resize_image_helper Sample.full_disk_env image_buf 2 2
                                       Sample.full_disk_object)) = 0%nat.
Proof. repeat split. Qed.

(** ** Events of one kind *)

Lemma in_calls (p : Event -> bool) (e : Event) (t : list Event) :
  In e t -> p e = true -> calls p t <> 0%nat.
Proof.
  intros Hin Hp. unfold calls.
  assert (Hf : In e (filter p t)) by (apply filter_In; auto).
  destruct (filter p t); [contradiction|discriminate].
Qed.

Lemma only_call (p : Event -> bool) (e e0 : Event) (pre post : list Event) :
  calls p pre = 0%nat -> calls p post = 0%nat ->
  In e (pre ++ e0 :: post) -> p e = true -> e = e0.
Proof.
  intros Hpre Hpost Hin Hp. apply in_app_or in Hin.
  destruct Hin as [Hin | [Heq | Hin]]; [|now symmetry|].
  - now destruct (in_calls p e pre Hin Hp).
  - now destruct (in_calls p e post Hin Hp).
Qed.

Lemma colorize_trace_calls (p : Event -> bool) (gl : bool) (out : string) (m : cv.Mat) :
  (forall e, is_colorize e || is_geometry e = true -> p e = false) ->
  calls p (colorize_trace gl out m) = 0%nat.
Proof.
  intros Hp.
  apply (calls_none p (fun e => is_colorize e || is_geometry e)); [exact Hp|].
  apply colorize_trace_events.
Qed.

Lemma rotate_trace_calls (p : Event -> bool) (E : Env) (o : OpencvImage) :
  (forall e, is_geometry e = true -> p e = false) ->
  calls p (trace_of (rotate_image E o)) = 0%nat.
Proof.
  intros Hp. apply (calls_none p is_geometry); [exact Hp|apply rotate_image_trace].
Qed.

(** ** Construction *)

Lemma filter_none (p : Event -> bool) (t : list Event) :
  calls p t = 0%nat -> filter p t = [].
Proof. unfold calls. apply length_zero_iff_nil. Qed.

(** A construction that gets past the decoder and the resize. *)
Lemma construction_succeeds (E : Env) (new_dims : Dimensions) (filename : string)
      (cached : bool) :
  cv.empty (imread E filename) = false ->
  resize_rejected E (state_of (rotate_image E (decoded E new_dims filename cached))) = false ->
  OpencvImage_new E new_dims filename cached =
  (inr (state_of (process_image E
                    (state_of (rotate_image E (decoded E new_dims filename cached))))),
   [Imread filename; Log info "loading file {}"] ++
   trace_of (rotate_image E (decoded E new_dims filename cached)) ++
   trace_of (process_image E
               (state_of (rotate_image E (decoded E new_dims filename cached))))).
Proof.
  intros Hne Hacc. rewrite construction_decoded by exact Hne. cbv zeta.
  rewrite Hacc. now rewrite state_of_bind, trace_of_bind.
Qed.






(** ** Where the cache write sits in a run *)

(** C10. Whenever a construction writes a cache file, the write directly
    follows the resize call and encodes its result, the resized
    orientation-corrected image; no depth conversion, premultiplication or
    colour conversion has been called before it, and no other write or
    resize follows. *)
Theorem cache_write_follows_resize_and_precedes_colorizing :
  forall (E : Env) (new_dims : Dimensions) (filename : string) (cached : bool)
         (file : string) (m : cv.Mat),
    In (Imwrite file m) (snd (OpencvImage_new E new_dims filename cached)) ->
    let oriented := image (state_of (rotate_image E (decoded E new_dims filename cached))) in
    exists (w h : Z) (pre post : list Event),
      snd (OpencvImage_new E new_dims filename cached) =
        pre ++ Resize w h :: Imwrite file m :: post /\
      m = resize E oriented w h /\
      file = get_cache_file_save_location E filename /\
      calls is_colorize pre = 0%nat /\
      calls is_imwrite pre = 0%nat /\ calls is_resize pre = 0%nat /\
      calls is_imwrite post = 0%nat /\ calls is_resize post = 0%nat.
Proof.
  intros E new_dims filename cached file m.
  destruct (cv.empty (imread E filename)) eqn:Hempty.
  { rewrite construction_empty by exact Hempty.
    intros [Hin | [Hin | []]]; discriminate. }
  rewrite construction_decoded by exact Hempty. cbv zeta.
  destruct (resize_rejected E _); cbn [snd].
  { intros Hin. exfalso. apply (in_calls is_imwrite) in Hin; [|reflexivity].
    apply Hin. rewrite !calls_app, resize_prelude_calls by reflexivity.
    now rewrite rotate_trace_calls by (intros []; cbn; congruence). }
  rewrite construction_trace. cbv zeta.
  set (o0 := decoded E new_dims filename cached).
  destruct (rotate_image_fields E o0) as (Hflags & _ & Hpath & _).
  set (o1 := state_of (rotate_image E o0)) in *.
  set (ct := colorize_trace _ _ _).
  assert (Hct : forall p, (forall e, is_colorize e || is_geometry e = true -> p e = false) ->
                          calls p ct = 0%nat)
    by (intros p Hp; now apply colorize_trace_calls).
  clearbody ct.
  unfold resize_trace, cache_events. rewrite Hpath. cbn [path o0 decoded].
  destruct (resize_request E o1) as [[w h]|].
  2:{ intros Hin. exfalso. revert Hin. cbn [app].
      intros Hin. apply (in_calls is_imwrite) in Hin; [|reflexivity].
      apply Hin. cbn [calls filter is_imwrite List.length].
      change (calls is_imwrite (trace_of (rotate_image E o0) ++ ct) = 0%nat).
      rewrite calls_app, Hct by (intros []; cbn; congruence).
      now rewrite rotate_trace_calls by (intros []; cbn; congruence). }
  set (A := if accelerated E o1 then [Log debug "OpenCL is available"; CopyTo] else []).
  set (B := if accelerated E o1 then [CopyTo] else []).
  assert (HA : forall p, p CopyTo = false -> (forall l s, p (Log l s) = false) ->
                         calls p A = 0%nat /\ calls p B = 0%nat).
  { intros p Hc Hl. unfold A, B, calls.
    destruct (accelerated E o1); cbn; rewrite ?Hc, ?Hl; auto. }
  clearbody A B.
  destruct (no_cache (flags o1)).
  { intros Hin. exfalso. apply (in_calls is_imwrite) in Hin; [|reflexivity].
    apply Hin. change (calls is_imwrite
                         (trace_of (rotate_image E o0) ++
                          (A ++ Log debug "Resizing image" :: Resize w h ::
                             [Log debug "Caching is disabled"] ++ B) ++ ct) = 0%nat).
    destruct (HA is_imwrite eq_refl (fun _ _ => eq_refl)) as [HA1 HB1].
    rewrite !calls_app, Hct, HA1 by (intros []; cbn; congruence).
    rewrite rotate_trace_calls by (intros []; cbn; congruence).
    change (Log debug "Resizing image" :: Resize w h :: [Log debug "Caching is disabled"] ++ B)
      with ([Log debug "Resizing image"; Resize w h; Log debug "Caching is disabled"] ++ B).
    now rewrite calls_app, HB1. }
  set (R := resize E (image o1) w h).
  set (loc := get_cache_file_save_location E filename).
  set (outcome := match imwrite E loc R with
                  | cv.Raises => Log error "Could not save image"
                  | _ => Log debug "Saved resized image"
                  end).
  assert (Hout : forall p, (forall l s, p (Log l s) = false) -> calls p [outcome] = 0%nat).
  { intros p Hl. unfold outcome, calls. destruct (imwrite E loc R); cbn; now rewrite Hl. }
  clearbody outcome.
  set (pre := [Imread filename; Log info "loading file {}"] ++
              trace_of (rotate_image E o0) ++ A ++ [Log debug "Resizing image"]).
  set (post := [outcome] ++ B ++ ct).
  assert (Hshape :
            [Imread filename; Log info "loading file {}"] ++
            trace_of (rotate_image E o0) ++
            (A ++ Log debug "Resizing image" :: Resize w h ::
               [Imwrite loc R; outcome] ++ B) ++ ct
            = pre ++ Resize w h :: Imwrite loc R :: post).
  { unfold pre, post. repeat rewrite <- app_assoc. reflexivity. }
  rewrite Hshape.
  destruct (HA is_imwrite eq_refl (fun _ _ => eq_refl)) as [HA1 HB1].
  destruct (HA is_resize eq_refl (fun _ _ => eq_refl)) as [HA2 HB2].
  destruct (HA is_colorize eq_refl (fun _ _ => eq_refl)) as [HA3 _].
  assert (Hpre_w : calls is_imwrite pre = 0%nat).
  { unfold pre. rewrite !calls_app, HA1.
    now rewrite rotate_trace_calls by (intros []; cbn; congruence). }
  assert (Hpre_r : calls is_resize pre = 0%nat).
  { unfold pre. rewrite !calls_app, HA2.
    now rewrite rotate_trace_calls by (intros []; cbn; congruence). }
  assert (Hpre_c : calls is_colorize pre = 0%nat).
  { unfold pre. rewrite !calls_app, HA3.
    now rewrite rotate_trace_calls by (intros []; cbn; congruence). }
  assert (Hpost_w : calls is_imwrite post = 0%nat).
  { unfold post. rewrite !calls_app, HB1, Hout, Hct; try reflexivity.
    intros []; cbn; congruence. }
  assert (Hpost_r : calls is_resize post = 0%nat).
  { unfold post. rewrite !calls_app, HB2, Hout, Hct; try reflexivity.
    intros []; cbn; congruence. }
  intros Hin.
  assert (Heq : Imwrite file m = Imwrite loc R).
  { apply (only_call is_imwrite _ _ (pre ++ [Resize w h]) post); try assumption.
    - now rewrite calls_app, Hpre_w.
    - now rewrite <- app_assoc.
    - reflexivity. }
  injection Heq as -> ->.
  exists w, h, pre, post. repeat split; assumption.
Qed.

Lemma cache_write_follows_resize_and_precedes_colorizing_witness :
  exists (w h : Z) (pre post : list Event),
    snd (OpencvImage_new Sample.turned_env Sample.box "a.png" false) =
      pre ++ Resize w h ::
        Imwrite "/tmp/cache/a.png"
                (Sample.nearest (cv.rotate Sample.six cv.ROTATE_90_CLOCKWISE) 2 2) :: post /\
    calls is_colorize pre = 0%nat.
Proof.
  destruct (cache_write_follows_resize_and_precedes_colorizing
              Sample.turned_env Sample.box "a.png" false
              "/tmp/cache/a.png"
              (Sample.nearest (cv.rotate Sample.six cv.ROTATE_90_CLOCKWISE) 2 2))
    as (w & h & pre & post & Htrace & _ & _ & Hc & _).
  - vm_compute. do 5 right. left. reflexivity.
  - exists w, h, pre, post. split; assumption.
Defined.

(** * Further properties of the pipeline *)

(** ** Orientation in coordinates *)

Section CoordinateFacts.

Context {A : Type} (d : A).

Local Open Scope nat_scope.

Lemma tabulate_ext (h w : nat) (f g : nat -> nat -> A) :
  (forall r c, r < h -> c < w -> f r c = g r c) ->
  Spec.tabulate h w f = Spec.tabulate h w g.
Proof.
  intros Hfg. unfold Spec.tabulate. apply map_ext_in. intros r Hr.
  apply in_seq in Hr. apply map_ext_in. intros c Hc. apply in_seq in Hc.
  apply Hfg; lia.
Qed.

Lemma tabulate_nrows (h w : nat) (f : nat -> nat -> A) :
  Spec.nrows (Spec.tabulate h w f) = h.
Proof. apply tabulate_length. Qed.

Lemma tabulate_self (m : list (list A)) :
  Spec.rectangular m -> m = Spec.tabulate (Spec.nrows m) (Spec.ncols m) (Spec.px d m).
Proof.
  intros Hm. apply (tabulate_eq d); [reflexivity| |reflexivity].
  intros r Hr. now apply rectangular_row.
Qed.

(** The transform of every tag, as one table of source coordinates. *)
Lemma orientation_coordinates (tag : option Z) (m : list (list A)) :
  Spec.rectangular m -> 0 < Spec.nrows m -> 0 < Spec.ncols m ->
  Spec.orientation_table d tag m =
  Spec.tabulate (if swaps_axes tag then Spec.ncols m else Spec.nrows m)
                (if swaps_axes tag then Spec.nrows m else Spec.ncols m)
                (fun r c =>
                   Spec.px d m
                     (fst (source_pixel tag (Spec.nrows m) (Spec.ncols m) r c))
                     (snd (source_pixel tag (Spec.nrows m) (Spec.ncols m) r c))).
Proof.
  intros Hm Hh Hw.
  assert (Hself := tabulate_self m Hm).
  assert (Hflip : forall R : list (list A),
             R = Spec.tabulate (Spec.ncols m) (Spec.nrows m) (Spec.px d R) ->
             Spec.horizontal_flip d R =
             Spec.tabulate (Spec.ncols m) (Spec.nrows m)
                           (fun r c => Spec.px d R r (Spec.nrows m - 1 - c))).
  { intros R HR. unfold Spec.horizontal_flip.
    assert (Hr : Spec.nrows R = Spec.ncols m) by (rewrite HR; apply tabulate_nrows).
    assert (Hc : Spec.ncols R = Spec.nrows m)
      by (rewrite HR; apply tabulate_ncols; assumption).
    now rewrite Hr, Hc. }
  destruct tag as [value|]; [|exact Hself].
  destruct value as [|p|p]; try exact Hself.
  do 4 (try destruct p as [p|p|]); try exact Hself;
    cbn [Spec.orientation_table swaps_axes source_pixel fst snd]; try reflexivity.
  - (* 7 *)
    rewrite Hflip.
    + apply tabulate_ext. intros r c Hr Hc.
      unfold Spec.rotate_90_counter_clockwise.
      rewrite (tabulate_px d) by lia. reflexivity.
    + unfold Spec.rotate_90_counter_clockwise at 1.
      apply tabulate_ext. intros r c Hr Hc.
      unfold Spec.rotate_90_counter_clockwise.
      now rewrite (tabulate_px d) by lia.
  - (* 5 *)
    rewrite Hflip.
    + apply tabulate_ext. intros r c Hr Hc.
      unfold Spec.rotate_90_clockwise.
      rewrite (tabulate_px d) by lia. f_equal. lia.
    + unfold Spec.rotate_90_clockwise at 1.
      apply tabulate_ext. intros r c Hr Hc.
      unfold Spec.rotate_90_clockwise.
      now rewrite (tabulate_px d) by lia.
Qed.

Lemma orientation_rectangular (tag : option Z) (m : list (list A)) :
  Spec.rectangular m -> 0 < Spec.nrows m -> 0 < Spec.ncols m ->
  Spec.rectangular (Spec.orientation_table d tag m) /\
  Spec.nrows (Spec.orientation_table d tag m) =
    (if swaps_axes tag then Spec.ncols m else Spec.nrows m) /\
  Spec.ncols (Spec.orientation_table d tag m) =
    (if swaps_axes tag then Spec.nrows m else Spec.ncols m).
Proof.
  intros Hm Hh Hw. rewrite orientation_coordinates by assumption.
  split; [apply tabulate_rectangular|]. split; [apply tabulate_nrows|].
  apply tabulate_ncols. destruct (swaps_axes tag); assumption.
Qed.

(** Undoing a transform by the transform of the inverse tag. *)
Lemma orientation_inverse (tag : option Z) (m : list (list A)) :
  Spec.rectangular m -> 0 < Spec.nrows m -> 0 < Spec.ncols m ->
  Spec.orientation_table d (inverse_orientation tag) (Spec.orientation_table d tag m) = m.
Proof.
  intros Hm Hh Hw.
  destruct (orientation_rectangular tag m Hm Hh Hw) as (Hm1 & Hr1 & Hc1).
  assert (Hh1 : 0 < Spec.nrows (Spec.orientation_table d tag m))
    by (rewrite Hr1; destruct (swaps_axes tag); assumption).
  assert (Hw1 : 0 < Spec.ncols (Spec.orientation_table d tag m))
    by (rewrite Hc1; destruct (swaps_axes tag); assumption).
  rewrite (orientation_coordinates (inverse_orientation tag) _ Hm1 Hh1 Hw1).
  rewrite Hr1, Hc1. clear Hm1 Hh1 Hw1 Hr1 Hc1.
  rewrite (orientation_coordinates tag m Hm Hh Hw).
  etransitivity; [|symmetry; apply (tabulate_self m Hm)].
  destruct tag as [[|p|p]|];
    try (do 4 (try destruct p as [p|p|]));
    cbn [inverse_orientation swaps_axes source_pixel fst snd];
    apply tabulate_ext; intros r c Hr Hc;
    rewrite (tabulate_px d) by lia; try reflexivity; f_equal; lia.
Qed.

End CoordinateFacts.

Lemma nonempty_dimensions (m : cv.Mat) :
  cv.empty m = false ->
  (0 < Spec.nrows (cv.data m))%nat /\ (0 < Spec.ncols (cv.data m))%nat.
Proof.
  unfold cv.empty, cv.total, cv.rows, cv.cols, Spec.nrows, Spec.ncols.
  intros He. apply Z.eqb_neq in He. split; nia.
Qed.

Lemma dimensions_nonempty (m : cv.Mat) :
  (0 < Spec.nrows (cv.data m))%nat -> (0 < Spec.ncols (cv.data m))%nat ->
  cv.empty m = false.
Proof.
  unfold cv.empty, cv.total, cv.rows, cv.cols, Spec.nrows, Spec.ncols.
  intros Hr Hc. apply Z.eqb_neq. nia.
Qed.

Lemma rotate_image_image (E : Env) (o : OpencvImage) :
  Spec.rectangular (cv.data (image o)) ->
  cv.data (image (state_of (rotate_image E o))) =
  Spec.orientation_table (A:=cv.Pixel) [] (read_exif_rotation E (path o))
                         (cv.data (image o)).
Proof. intros Hrect. now rewrite rotate_image_run. Qed.

(** X1. On a rectangular, non-empty image, [rotate_image] exchanges width and
    height for the tags 5 to 8 and keeps them for every other tag or none;
    the image stays rectangular and non-empty. *)
Theorem rotate_image_exchanges_width_and_height :
  forall (E : Env) (o : OpencvImage),
    Spec.rectangular (cv.data (image o)) ->
    cv.empty (image o) = false ->
    let tag := read_exif_rotation E (path o) in
    let o' := state_of (rotate_image E o) in
    width o' = (if swaps_axes tag then height o else width o) /\
    height o' = (if swaps_axes tag then width o else height o) /\
    cv.empty (image o') = false /\
    Spec.rectangular (cv.data (image o')).
Proof.
  intros E o Hrect Hne tag o'.
  destruct (nonempty_dimensions _ Hne) as [Hh Hw].
  destruct (orientation_rectangular (A:=cv.Pixel) [] tag _ Hrect Hh Hw) as (Hm1 & Hr1 & Hc1).
  assert (Hdata : cv.data (image o') =
                  Spec.orientation_table [] tag (cv.data (image o)))
    by now apply rotate_image_image.
  assert (Hwidth : forall s, width s = Z.of_nat (Spec.ncols (cv.data (image s))))
    by reflexivity.
  assert (Hheight : forall s, height s = Z.of_nat (Spec.nrows (cv.data (image s))))
    by reflexivity.
  assert (Hne' : cv.empty (image o') = false).
  { apply dimensions_nonempty; rewrite Hdata; unfold cv.Pixel in *;
      rewrite ?Hr1, ?Hc1; destruct (swaps_axes tag); assumption. }
  rewrite !Hwidth, !Hheight, Hdata. unfold cv.Pixel in *. rewrite Hr1, Hc1.
  split; [destruct (swaps_axes tag); reflexivity|].
  split; [destruct (swaps_axes tag); reflexivity|].
  split; [exact Hne'|exact Hm1].
Qed.

Lemma rotate_image_exchanges_width_and_height_witness :
  width Sample.turned = 3 /\ height Sample.turned = 2 /\
  width (state_of (rotate_image Sample.turned_env Sample.turned)) = 2 /\
  height (state_of (rotate_image Sample.turned_env Sample.turned)) = 3.
Proof.
  assert (Hrect : Spec.rectangular (cv.data (image Sample.turned)))
    by (repeat constructor).
  destruct (rotate_image_exchanges_width_and_height
              Sample.turned_env Sample.turned Hrect eq_refl) as (Hw & Hh & _).
  split; [reflexivity|]. split; [reflexivity|]. split; [exact Hw|exact Hh].
Defined.

(** X2. On a rectangular, non-empty image of H rows and W columns, the pixel
    that [rotate_image] leaves at row r, column c is the source pixel the
    tag selects: (r, W-1-c) for 2, (H-1-r, W-1-c) for 3, (H-1-r, c) for 4,
    (c, r) for 5, (H-1-c, r) for 6, (H-1-c, W-1-r) for 7, (c, W-1-r) for 8,
    and (r, c) otherwise. *)
Theorem rotate_image_pixel_source :
  forall (E : Env) (o : OpencvImage) (r c : nat),
    Spec.rectangular (cv.data (image o)) ->
    cv.empty (image o) = false ->
    let tag := read_exif_rotation E (path o) in
    let o' := state_of (rotate_image E o) in
    let H := Spec.nrows (cv.data (image o)) in
    let W := Spec.ncols (cv.data (image o)) in
    (r < Spec.nrows (cv.data (image o')))%nat ->
    (c < Spec.ncols (cv.data (image o')))%nat ->
    Spec.px [] (cv.data (image o')) r c =
    Spec.px [] (cv.data (image o))
            (fst (source_pixel tag H W r c)) (snd (source_pixel tag H W r c)).
Proof.
  intros E o r c Hrect Hne tag o' H W.
  destruct (nonempty_dimensions _ Hne) as [Hh Hw].
  destruct (orientation_rectangular (A:=cv.Pixel) [] tag _ Hrect Hh Hw) as (_ & Hr1 & Hc1).
  unfold o'. rewrite rotate_image_image by assumption. fold tag.
  rewrite Hr1, Hc1. intros Hr Hc.
  rewrite orientation_coordinates by assumption.
  now rewrite tabulate_px.
Qed.

Lemma rotate_image_pixel_source_witness :
  Spec.px [] (cv.data (image (state_of (rotate_image Sample.turned_env Sample.turned))))
          2 1 = [7; 8; 9] /\
  Spec.px [] (cv.data (image Sample.turned)) 0 2 = [7; 8; 9].
Proof.
  assert (Hrect : Spec.rectangular (cv.data (image Sample.turned)))
    by (repeat constructor).
  split; [|reflexivity].
  rewrite (rotate_image_pixel_source Sample.turned_env Sample.turned 2 1 Hrect eq_refl).
  - reflexivity.
  - vm_compute. lia.
  - vm_compute. lia.
Defined.

(** X3. On a rectangular, non-empty image, running [rotate_image] for a tag
    and then for its inverse (8 for 6, 6 for 8, the tag itself otherwise)
    gives the object back: the flips, the transpose (5) and the
    anti-transpose (7) undo themselves, the two quarter turns undo each
    other. *)
Theorem rotate_image_inverse_restores :
  forall (E : Env) (o : OpencvImage) (tag : option Z),
    Spec.rectangular (cv.data (image o)) ->
    cv.empty (image o) = false ->
    state_of (rotate_image (with_exif (inverse_orientation tag) E)
                (state_of (rotate_image (with_exif tag E) o))) = o.
Proof.
  intros E o tag Hrect Hne.
  destruct (nonempty_dimensions _ Hne) as [Hh Hw].
  destruct (orientation_rectangular (A:=cv.Pixel) [] tag _ Hrect Hh Hw) as (Hm1 & _).
  rewrite (rotate_image_run (with_exif tag E) o Hrect).
  cbn [read_exif_rotation with_exif].
  rewrite rotate_image_run by exact Hm1.
  cbn [read_exif_rotation with_exif image set_image cv.data cv.with_data].
  rewrite orientation_inverse by assumption.
  destruct o as [p dm mw mh ic [dp ch dt] u ocl fl sz]. reflexivity.
Qed.

Lemma rotate_image_inverse_restores_witness :
  state_of (rotate_image (with_exif (Some 8) Sample.turned_env)
              (state_of (rotate_image (with_exif (Some 6) Sample.turned_env)
                                      Sample.turned))) = Sample.turned.
Proof.
  assert (Hrect : Spec.rectangular (cv.data (image Sample.turned)))
    by (repeat constructor).
  exact (rotate_image_inverse_restores Sample.turned_env Sample.turned (Some 6)
                                       Hrect eq_refl).
Defined.

(** ** Premultiplication on bytes *)

Lemma premultiplied_sample_bounds (c a : Z) :
  0 <= c <= 255 -> 0 <= a <= 255 ->
  0 <= (c * a) / 255 /\ (c * a) / 255 <= c /\ (c * a) / 255 <= a.
Proof.
  intros Hc Ha. split; [apply Z.div_pos; nia|].
  split; apply Z.lt_succ_r, Z.div_lt_upper_bound; nia.
Qed.

(** X4. On bytes, premultiplication keeps alpha and never brightens: each
    colour channel of the result is at most the channel it replaces and at
    most alpha, so a fully transparent pixel becomes black. *)
Theorem premultiply_never_exceeds_channel_or_alpha :
  forall b g r a : Z,
    exists b' g' r' : Z,
      premultiply [uint8_t b; uint8_t g; uint8_t r; uint8_t a] =
        [b'; g'; r'; uint8_t a] /\
      0 <= b' <= uint8_t b /\ b' <= uint8_t a /\
      0 <= g' <= uint8_t g /\ g' <= uint8_t a /\
      0 <= r' <= uint8_t r /\ r' <= uint8_t a.
Proof.
  intros b g r a.
  pose proof (uint8_t_range b) as Hb. pose proof (uint8_t_range g) as Hg.
  pose proof (uint8_t_range r) as Hr. pose proof (uint8_t_range a) as Ha.
  exists ((uint8_t b * uint8_t a) / 255), ((uint8_t g * uint8_t a) / 255),
         ((uint8_t r * uint8_t a) / 255).
  split.
  - unfold premultiply. now rewrite !premultiply_sample by assumption.
  - pose proof (premultiplied_sample_bounds _ _ Hb Ha).
    pose proof (premultiplied_sample_bounds _ _ Hg Ha).
    pose proof (premultiplied_sample_bounds _ _ Hr Ha).
    lia.
Qed.

Lemma premultiply_opaque_pixel (p : cv.Pixel) :
  Forall (fun v => 0 <= v <= 255) p ->
  List.length p = 4%nat -> nth 3 p 0 = 255 ->
  premultiply p = p.
Proof.
  intros Hp Hlen Ha.
  destruct p as [|b [|g [|r [|a [|? ?]]]]]; try discriminate.
  cbn in Ha. subst a.
  inversion Hp as [|? ? Hb Hp1]; subst. inversion Hp1 as [|? ? Hg Hp2]; subst.
  inversion Hp2 as [|? ? Hr _]; subst.
  unfold premultiply.
  change (uint8_t 255) with 255.
  assert (Hs : forall c, 0 <= c <= 255 -> uint8_t ((c * 255) ÷ 255) = c).
  { intros c Hc. rewrite Z.quot_div_nonneg by lia. rewrite Z.div_mul by lia.
    unfold uint8_t. apply Z.mod_small. lia. }
  now rewrite !Hs by assumption.
Qed.

Lemma alpha_stage_opaque (m : cv.Mat) :
  cv.channels m = 4 ->
  samples_within 255 (cv.data m) ->
  alpha_everywhere 255 (cv.data m) ->
  alpha_stage m = m.
Proof.
  intros Hc Hs Ha. unfold alpha_stage. rewrite Hc. cbn [Z.eqb Pos.eqb].
  unfold cv.forEach. rewrite <- (with_data_same m) at 3. f_equal.
  unfold samples_within, alpha_everywhere in *.
  induction (cv.data m) as [|row d IH]; [reflexivity|].
  inversion Hs as [|? ? Hrow Hd]; subst. inversion Ha as [|? ? Harow Had]; subst.
  cbn [map]. f_equal; [|now apply IH].
  clear IH Hs Ha Hd Had.
  induction row as [|p row IHrow]; [reflexivity|].
  inversion Hrow as [|? ? Hp Hrest]; subst.
  inversion Harow as [|? ? [Hlen Hlast] Harest]; subst.
  cbn [map]. f_equal; [now apply premultiply_opaque_pixel|now apply IHrow].
Qed.

(** X5. For the backends x11, chafa and wayland, without the OpenGL flip, an
    8-bit four-channel image whose pixels are all fully opaque passes through
    the colour stages of [process_image] unchanged: premultiplying by an
    opaque alpha changes nothing, and no conversion is called; the
    premultiplication loop is the one call the colour stages make. *)
Theorem opaque_bgra_image_passes_unchanged :
  forall (E : Env) (o : OpencvImage),
    contains bgra_trifecta (output (flags o)) = true ->
    ENABLE_OPENGL E && use_opengl (flags o) = false ->
    cv.depth (image (state_of (resize_image E o))) = cv.CV_8U ->
    cv.channels (image (state_of (resize_image E o))) = 4 ->
    samples_within 255 (cv.data (image (state_of (resize_image E o)))) ->
    alpha_everywhere 255 (cv.data (image (state_of (resize_image E o)))) ->
    image (state_of (process_image E o)) = image (state_of (resize_image E o)) /\
    filter is_colorize (trace_of (process_image E o)) = [ForEach].
Proof.
  intros E o Hout Hgl Hd Hc Hs Ha.
  destruct (process_image_run E o) as [Hst Htr]. cbv zeta in Hst, Htr.
  destruct (resize_image_run E o) as (_ & Hrt & _).
  rewrite Hst, Htr, Hrt, Hgl. cbn [image set_size set_image].
  set (m := image (state_of (resize_image E o))) in *.
  assert (H8 : to_8bit m = m) by (unfold to_8bit; now rewrite Hd).
  assert (Hal : alpha_stage m = m) by now apply alpha_stage_opaque.
  split.
  - unfold colorize, backend_stage, gray_stage, opengl_stage.
    rewrite H8, Hal, Hout, Hc. cbn [Z.eqb Pos.eqb]. now rewrite Hc.
  - rewrite filter_app, (filter_none is_colorize (resize_trace E o))
      by (apply resize_trace_no_colorize; intros []; cbn; congruence).
    unfold colorize_trace. cbv zeta. unfold gray_stage, opengl_stage.
    rewrite H8, Hal, Hd, Hout, Hc. cbn [Z.eqb Pos.eqb]. now rewrite Hc.
Qed.

Lemma opaque_bgra_image_passes_unchanged_witness :
  image (state_of (process_image
                     (Sample.env_of Sample.six None (0, 0) cv.Written Sample.center_flags)
                     (Sample.object_of
                        (Sample.env_of Sample.six None (0, 0) cv.Written Sample.center_flags)
                        (cv.mkMat cv.CV_8U 4 [[[10; 20; 30; 255]; [0; 255; 7; 255]]])
                        true))) =
  cv.mkMat cv.CV_8U 4 [[[10; 20; 30; 255]; [0; 255; 7; 255]]].
Proof.
  apply opaque_bgra_image_passes_unchanged; try reflexivity.
  - repeat constructor; lia.
  - repeat constructor.
Defined.

(** ** Width and height through the colour stages *)

Section ShapeFacts.

Context {A B : Type}.

Lemma map_rows_shape (f : A -> B) (d : list (list A)) :
  Spec.nrows (map (map f) d) = Spec.nrows d /\
  Spec.ncols (map (map f) d) = Spec.ncols d /\
  (Spec.rectangular d -> Spec.rectangular (map (map f) d)).
Proof.
  unfold Spec.rectangular, Spec.nrows, Spec.ncols.
  split; [apply length_map|].
  assert (Hcols : List.length (hd [] (map (map f) d)) = List.length (hd [] d))
    by (destruct d; cbn; [reflexivity|apply length_map]).
  split; [exact Hcols|].
  rewrite Hcols. intros Hr. apply Forall_map.
  eapply Forall_impl; [|exact Hr]. intros row Hrow. cbn. now rewrite length_map.
Qed.

Lemma rev_rows_shape (d : list (list A)) :
  Spec.rectangular d ->
  Spec.nrows (rev d) = Spec.nrows d /\
  Spec.ncols (rev d) = Spec.ncols d /\
  Spec.rectangular (rev d).
Proof.
  unfold Spec.rectangular, Spec.nrows, Spec.ncols. intros Hr.
  split; [apply length_rev|].
  assert (Hcols : List.length (hd [] (rev d)) = List.length (hd [] d)).
  { destruct (rev d) as [|row rest] eqn:Hrev.
    - apply (f_equal (@rev (list A))) in Hrev. rewrite rev_involutive in Hrev.
      now subst d.
    - rewrite Forall_forall in Hr. cbn. apply Hr. apply in_rev.
      rewrite Hrev. now left. }
  split; [exact Hcols|]. rewrite Hcols. now apply Forall_rev.
Qed.

End ShapeFacts.

Lemma colorize_shape (gl : bool) (out : string) (m : cv.Mat) :
  Spec.rectangular (cv.data m) ->
  cv.rows (colorize gl out m) = cv.rows m /\
  cv.cols (colorize gl out m) = cv.cols m /\
  Spec.rectangular (cv.data (colorize gl out m)).
Proof.
  assert (Hstep : forall (a b : cv.Mat),
             (Spec.rectangular (cv.data a) ->
              Spec.nrows (cv.data b) = Spec.nrows (cv.data a) /\
              Spec.ncols (cv.data b) = Spec.ncols (cv.data a) /\
              Spec.rectangular (cv.data b)) ->
             Spec.rectangular (cv.data m) ->
             (cv.rows a = cv.rows m /\ cv.cols a = cv.cols m /\
              Spec.rectangular (cv.data a)) ->
             cv.rows b = cv.rows m /\ cv.cols b = cv.cols m /\
             Spec.rectangular (cv.data b)).
  { intros a b Hab _ (Hr & Hc & Hrect). destruct (Hab Hrect) as (Hr' & Hc' & Hrect').
    unfold cv.rows, cv.cols, Spec.nrows, Spec.ncols in *.
    repeat split; try assumption; congruence. }
  assert (Hmap : forall (a : cv.Mat) (f : cv.Pixel -> cv.Pixel) (dp : cv.Depth) (ch : Z),
             Spec.rectangular (cv.data a) ->
             Spec.nrows (cv.data (cv.mkMat dp ch (map (map f) (cv.data a)))) =
               Spec.nrows (cv.data a) /\
             Spec.ncols (cv.data (cv.mkMat dp ch (map (map f) (cv.data a)))) =
               Spec.ncols (cv.data a) /\
             Spec.rectangular (cv.data (cv.mkMat dp ch (map (map f) (cv.data a))))).
  { intros a f dp ch Hrect. cbn [cv.data].
    destruct (map_rows_shape f (cv.data a)) as (H1 & H2 & H3). auto. }
  assert (Hid : forall a : cv.Mat,
             Spec.rectangular (cv.data a) ->
             Spec.nrows (cv.data a) = Spec.nrows (cv.data a) /\
             Spec.ncols (cv.data a) = Spec.ncols (cv.data a) /\
             Spec.rectangular (cv.data a)) by auto.
  intros Hrect. unfold colorize.
  apply (Hstep (gray_stage (opengl_stage gl (alpha_stage (to_8bit m))))); [|assumption|].
  { unfold backend_stage.
    repeat match goal with
           | |- context [if ?b then _ else _] => destruct b
           end; first [apply Hid | apply Hmap]. }
  apply (Hstep (opengl_stage gl (alpha_stage (to_8bit m)))); [|assumption|].
  { unfold gray_stage. destruct (_ =? 1); [apply Hmap|apply Hid]. }
  apply (Hstep (alpha_stage (to_8bit m))); [|assumption|].
  { unfold opengl_stage. destruct gl; [|apply Hid].
    intros Hr. unfold cv.flip, cv.with_data, cv.flip_rows. cbn [cv.data Z.eqb].
    now apply rev_rows_shape. }
  apply (Hstep (to_8bit m)); [|assumption|].
  { unfold alpha_stage. destruct (_ =? 4); [apply Hmap|apply Hid]. }
  apply (Hstep m); [|assumption|auto].
  unfold to_8bit. destruct (cv.Depth_eqb _ _); [|apply Hid].
  intros Hr. unfold cv.convertTo_8U. now apply Hmap.
Qed.

(** X6. The colour stages of [process_image] never change the size of a
    rectangular image: the width and height of the object after
    [process_image] are those the resize step left, and the buffer stays
    rectangular. *)
Theorem process_image_keeps_resized_dimensions :
  forall (E : Env) (o : OpencvImage),
    Spec.rectangular (cv.data (image (state_of (resize_image E o)))) ->
    width (state_of (process_image E o)) = width (state_of (resize_image E o)) /\
    height (state_of (process_image E o)) = height (state_of (resize_image E o)) /\
    Spec.rectangular (cv.data (image (state_of (process_image E o)))).
Proof.
  intros E o Hrect. unfold width, height. rewrite process_image_image.
  destruct (colorize_shape (ENABLE_OPENGL E && use_opengl (flags o))
                           (output (flags o)) _ Hrect) as (Hr & Hc & Hrect').
  auto.
Qed.

Lemma process_image_keeps_resized_dimensions_witness :
  width (state_of (process_image Sample.turned_env Sample.turned)) = 2 /\
  height (state_of (process_image Sample.turned_env Sample.turned)) = 2.
Proof.
  assert (Hrect : Spec.rectangular
                    (cv.data (image (state_of (resize_image Sample.turned_env
                                                            Sample.turned)))))
    by (repeat constructor).
  destruct (process_image_keeps_resized_dimensions
              Sample.turned_env Sample.turned Hrect) as (Hw & Hh & _).
  split; [exact Hw|exact Hh].
Defined.

(** ** Constructions that resize and constructions that do not *)





(** ** Counting resizes, cache writes and error reports *)



(** X9. The trace of a construction holds as many error entries as it holds
    cache writes on which [cv::imwrite] raises: an error is logged exactly
    for a raised write, never for anything else. *)
Theorem errors_logged_are_raised_writes :
  forall (E : Env) (new_dims : Dimensions) (filename : string) (cached : bool),
    calls is_error_log (snd (OpencvImage_new E new_dims filename cached)) =
    calls (is_raised_write E) (snd (OpencvImage_new E new_dims filename cached)).
Proof.
  intros E new_dims filename cached.
  destruct (cv.empty (imread E filename)) eqn:Hempty.
  { now rewrite construction_empty by exact Hempty. }
  rewrite construction_decoded by exact Hempty. cbv zeta.
  destruct (resize_rejected E _); cbn [snd].
  { rewrite !calls_app, !resize_prelude_calls by reflexivity.
    now rewrite !rotate_trace_calls by (intros []; cbn; congruence). }
  rewrite construction_trace. cbv zeta. rewrite !calls_app.
  rewrite !rotate_trace_calls by (intros []; cbn; congruence).
  rewrite !colorize_trace_calls by (intros []; cbn; congruence).
  unfold resize_trace, cache_events.
  destruct (resize_request E _) as [[w h]|]; [|reflexivity].
  destruct (accelerated E _), (no_cache _); try reflexivity;
    unfold calls; cbn; destruct (imwrite E _ _); reflexivity.
Qed.

Example raised_write_is_counted :
  calls is_error_log (snd (OpencvImage_new More.raising_env Sample.box "a.png" false)) = 1%nat
  /\ calls (is_raised_write More.raising_env)
           (snd (OpencvImage_new More.raising_env Sample.box "a.png" false)) = 1%nat.
Proof. split; reflexivity. Qed.

(** ** The cache does not reach the object *)

(** X10. The object a construction yields, or its failure, is the same
    wherever the cache files go and whatever [cv::imwrite] does with them:
    the cache only shows in the trace. *)
Theorem constructed_object_ignores_cache :
  forall (E : Env) (loc : string -> string) (w : string -> cv.Mat -> cv.WriteOutcome)
         (new_dims : Dimensions) (filename : string) (cached : bool),
    fst (OpencvImage_new (with_cache loc w E) new_dims filename cached) =
    fst (OpencvImage_new E new_dims filename cached).
Proof.
  intros E loc w new_dims filename cached.
  destruct (cv.empty (imread E filename)) eqn:Hempty.
  { now rewrite !construction_empty by exact Hempty. }
  rewrite !construction_decoded by exact Hempty. cbv zeta.
  change (decoded (with_cache loc w E) new_dims filename cached)
    with (decoded E new_dims filename cached).
  change (rotate_image (with_cache loc w E)) with (rotate_image E).
  change (resize_rejected (with_cache loc w E)) with (resize_rejected E).
  destruct (resize_rejected E _); [reflexivity|]. cbn [fst]. f_equal.
  rewrite !state_of_bind.
  change (rotate_image (with_cache loc w E)) with (rotate_image E).
  set (s := state_of (rotate_image E (decoded E new_dims filename cached))).
  destruct (process_image_run E s) as [-> _].
  destruct (process_image_run (with_cache loc w E) s) as [-> _].
  cbv zeta. now rewrite resize_image_state_any_cache.
Qed.

(** ** The final buffer *)

Lemma gray_stage_shape (m : cv.Mat) :
  cv.depth (gray_stage m) = cv.depth m /\
  cv.channels (gray_stage m) = (if cv.channels m =? 1 then 4 else cv.channels m).
Proof. unfold gray_stage. destruct (cv.channels m =? 1); split; reflexivity. Qed.

Lemma backend_stage_depth (out : string) (m : cv.Mat) :
  cv.depth (backend_stage out m) = cv.depth m.
Proof.
  unfold backend_stage.
  repeat match goal with
         | |- context [if ?b then _ else _] => destruct b
         end; reflexivity.
Qed.

(** The colour stages leave 8-bit samples: a 16-bit buffer is converted and
    an 8-bit one is kept. *)
Lemma colorize_byte_depth (gl : bool) (out : string) (m : cv.Mat) :
  cv.depth m = cv.CV_8U \/ cv.depth m = cv.CV_16U ->
  cv.depth (colorize gl out m) = cv.CV_8U.
Proof.
  intros Hd. unfold colorize.
  rewrite backend_stage_depth, (proj1 (gray_stage_shape _)).
  rewrite (proj1 (proj2 (opengl_stage_shape _ _))).
  rewrite (proj1 (proj2 (alpha_stage_shape _))).
  unfold to_8bit. destruct Hd as [Hd | Hd]; rewrite Hd; cbn [cv.Depth_eqb];
    [exact Hd|reflexivity].
Qed.

Lemma colorize_channels (gl : bool) (out : string) (m : cv.Mat) :
  cv.channels m = 1 \/ cv.channels m = 3 \/ cv.channels m = 4 ->
  cv.channels (colorize gl out m) = 3 \/ cv.channels (colorize gl out m) = 4.
Proof.
  intros Hc. unfold colorize.
  set (pre := opengl_stage gl (alpha_stage (to_8bit m))).
  assert (Hpre : cv.channels pre = cv.channels m).
  { unfold pre. destruct (opengl_stage_shape gl (alpha_stage (to_8bit m))) as (-> & _).
    destruct (alpha_stage_shape (to_8bit m)) as (-> & _). apply to_8bit_shape. }
  destruct (gray_stage_shape pre) as [_ Hg]. rewrite Hpre in Hg.
  assert (Hg' : cv.channels (gray_stage pre) = 3 \/ cv.channels (gray_stage pre) = 4).
  { rewrite Hg. destruct Hc as [-> | [-> | ->]]; cbn; auto. }
  clear Hg. unfold backend_stage.
  repeat match goal with
         | |- context [if ?b then _ else _] => destruct b
         end; cbn [cv.channels cv.cvtColor cv.dcn]; auto.
Qed.

(** X11. Whatever the backend name is, an image of one, three or four
    channels and of 8-bit or 16-bit unsigned samples leaves [process_image]
    with three or four channels and 8-bit samples. *)
Theorem final_buffer_has_three_or_four_byte_channels :
  forall (E : Env) (o : OpencvImage),
    cv.channels (image (state_of (resize_image E o))) = 1 \/
    cv.channels (image (state_of (resize_image E o))) = 3 \/
    cv.channels (image (state_of (resize_image E o))) = 4 ->
    cv.depth (image (state_of (resize_image E o))) = cv.CV_8U \/
    cv.depth (image (state_of (resize_image E o))) = cv.CV_16U ->
    (channels (state_of (process_image E o)) = 3 \/
     channels (state_of (process_image E o)) = 4) /\
    cv.depth (image (state_of (process_image E o))) = cv.CV_8U.
Proof.
  intros E o Hc Hd. unfold channels. rewrite process_image_image.
  split; [now apply colorize_channels|now apply colorize_byte_depth].
Qed.

Lemma final_buffer_has_three_or_four_byte_channels_witness :
  channels (state_of (process_image Sample.dim_env Sample.dim_object)) = 4 /\
  cv.depth (image (state_of (process_image Sample.dim_env Sample.dim_object))) = cv.CV_8U.
Proof.
  destruct (final_buffer_has_three_or_four_byte_channels
              Sample.dim_env Sample.dim_object (or_introl eq_refl)
              (or_intror eq_refl)) as [Hc Hd].
  split; [reflexivity|exact Hd].
Defined.

(** X12. For a backend name other than x11, chafa, wayland, kitty and sixel,
    [process_image] converts no colour order: a three- or four-channel image
    keeps its BGR or BGRA pixels, 8-bit and premultiplied, and the only
    conversion ever called is the expansion of a gray image. *)
Theorem unknown_backend_keeps_bgr_order :
  forall (E : Env) (o : OpencvImage),
    contains bgra_trifecta (output (flags o)) = false ->
    String.eqb (output (flags o)) "kitty" = false ->
    String.eqb (output (flags o)) "sixel" = false ->
    let resized := image (state_of (resize_image E o)) in
    let gl := ENABLE_OPENGL E && use_opengl (flags o) in
    image (state_of (process_image E o)) =
      (if cv.channels resized =? 1
       then cv.cvtColor (opengl_stage gl (to_8bit resized)) cv.COLOR_GRAY2BGRA
       else opengl_stage gl (alpha_stage (to_8bit resized))) /\
    filter (fun e => match e with CvtColor _ => true | _ => false end)
           (trace_of (process_image E o)) =
      (if cv.channels resized =? 1 then [CvtColor cv.COLOR_GRAY2BGRA] else []).
Proof.
  intros E o Htri Hkitty Hsixel resized gl.
  destruct (process_image_run E o) as [_ Htr]. cbv zeta in Htr.
  destruct (resize_image_run E o) as (_ & Hrt & _).
  rewrite process_image_image, Htr, Hrt. fold resized gl.
  destruct (to_8bit_shape resized) as (Hc1 & _).
  destruct (alpha_stage_shape (to_8bit resized)) as (Hc2 & _).
  destruct (opengl_stage_shape gl (alpha_stage (to_8bit resized))) as (Hc3 & _).
  assert (Hch : cv.channels (opengl_stage gl (alpha_stage (to_8bit resized))) =
                cv.channels resized) by congruence.
  assert (Halpha : (cv.channels resized =? 1) = true ->
                   alpha_stage (to_8bit resized) = to_8bit resized).
  { intros H1. unfold alpha_stage. rewrite Hc1.
    apply Z.eqb_eq in H1. rewrite H1. reflexivity. }
  split.
  - unfold colorize, backend_stage, gray_stage.
    rewrite Htri, Hkitty, Hsixel, Hch.
    destruct (cv.channels resized =? 1) eqn:H1; [|reflexivity].
    now rewrite Halpha.
  - rewrite filter_app.
    assert (Hnone : filter (fun e => match e with CvtColor _ => true | _ => false end)
                           (resize_trace E o) = []).
    { unfold resize_trace, cache_events.
      destruct (resize_request E o) as [[w h]|]; [|reflexivity].
      destruct (accelerated E o), (no_cache (flags o));
        try destruct (imwrite E _ _); reflexivity. }
    rewrite Hnone. cbn [app].
    unfold colorize_trace. cbv zeta. rewrite Htri, Hkitty, Hsixel, Hc1, Hch.
    repeat match goal with
           | |- context [if ?b then _ else _] => destruct b
           end; reflexivity.
Qed.

Lemma unknown_backend_keeps_bgr_order_witness :
  image (state_of (process_image More.iterm_env More.iterm_object)) = Sample.six.
Proof.
  rewrite (proj1 (unknown_backend_keeps_bgr_order
                    More.iterm_env More.iterm_object eq_refl eq_refl eq_refl)).
  reflexivity.
Defined.

(** ** Bytes and pixel sizes of the final buffer *)

Lemma samples_map (hi : Z) (f : cv.Pixel -> cv.Pixel) (d : list (list cv.Pixel)) :
  (forall p, Forall (fun v => 0 <= v <= hi) p -> Forall (fun v => 0 <= v <= hi) (f p)) ->
  samples_within hi d -> samples_within hi (map (map f) d).
Proof.
  intros Hf Hd. unfold samples_within in *.
  induction Hd as [|row d Hrow _ IH]; cbn; constructor; [|exact IH].
  induction Hrow as [|p row Hp _ IHrow]; cbn; constructor; auto.
Qed.

Lemma samples_converted (alpha : Q) (d : list (list cv.Pixel)) :
  samples_within 255 (map (map (map (cv.convert_sample_8U alpha))) d).
Proof.
  unfold samples_within.
  induction d as [|row d IH]; cbn; constructor; [|exact IH].
  induction row as [|p row IHrow]; cbn; constructor; [|exact IHrow].
  induction p as [|v p IHp]; cbn; constructor; [|exact IHp].
  apply convert_sample_byte.
Qed.

Lemma premultiply_bytes (p : cv.Pixel) :
  Forall (fun v => 0 <= v <= 255) p -> Forall (fun v => 0 <= v <= 255) (premultiply p).
Proof.
  intros Hp. destruct p as [|b [|g [|r [|a [|? ?]]]]]; try exact Hp.
  unfold premultiply.
  inversion Hp as [|? ? _ Hp1]; subst. inversion Hp1 as [|? ? _ Hp2]; subst.
  inversion Hp2 as [|? ? _ Hp3]; subst.
  repeat constructor; try apply uint8_t_range; inversion Hp3; subst; lia.
Qed.

Lemma cvt_pixel_bytes (code : cv.ColorConversionCodes) (p : cv.Pixel) :
  Forall (fun v => 0 <= v <= 255) p ->
  Forall (fun v => 0 <= v <= 255) (cv.cvt_pixel code 255 p).
Proof.
  intros Hp.
  destruct p as [|b [|g [|r [|a [|? ?]]]]]; destruct code; cbn; try exact Hp;
    repeat match goal with
           | H : Forall _ (_ :: _) |- _ => inversion H; subst; clear H
           end;
    repeat constructor; lia.
Qed.

Lemma cvtColor_bytes (m : cv.Mat) (code : cv.ColorConversionCodes) :
  cv.depth m = cv.CV_8U ->
  samples_within 255 (cv.data m) ->
  samples_within 255 (cv.data (cv.cvtColor m code)).
Proof.
  intros Hd Hs. unfold cv.cvtColor. rewrite Hd. cbn [cv.data cv.depth_max].
  apply samples_map; [apply cvt_pixel_bytes|exact Hs].
Qed.

Lemma cvtColor_uniform (m : cv.Mat) (code : cv.ColorConversionCodes) :
  cv.uniform m ->
  match code with
  | cv.COLOR_GRAY2BGRA => cv.channels m = 1
  | _ => cv.channels m = 3 \/ cv.channels m = 4
  end ->
  cv.uniform (cv.cvtColor m code).
Proof.
  intros Hu Hc. unfold cv.uniform, cv.cvtColor in *. cbn [cv.data cv.channels].
  apply (pixels_map (cv.channels m)); [|exact Hu].
  intros p Hp.
  destruct code; [rewrite Hc in Hp|destruct Hc as [Hc | Hc]; rewrite Hc in Hp ..];
    destruct p as [|? [|? [|? [|? [|? ?]]]]]; cbn in Hp; try lia; reflexivity.
Qed.

Lemma colorize_bytes (gl : bool) (out : string) (m : cv.Mat) :
  cv.uniform m ->
  cv.channels m = 1 \/ cv.channels m = 3 \/ cv.channels m = 4 ->
  (cv.depth m = cv.CV_8U -> samples_within 255 (cv.data m)) ->
  cv.uniform (colorize gl out m) /\ samples_within 255 (cv.data (colorize gl out m)).
Proof.
  intros Hu Hc Hs.
  destruct (to_8bit_shape m) as (Hc1 & Hd1 & Hu1).
  assert (Hs1 : samples_within 255 (cv.data (to_8bit m))).
  { unfold to_8bit. destruct (cv.depth m); cbn [cv.Depth_eqb];
      [now apply Hs|apply samples_converted]. }
  destruct (alpha_stage_shape (to_8bit m)) as (Hc2 & Hd2 & Hu2).
  assert (Hs2 : samples_within 255 (cv.data (alpha_stage (to_8bit m)))).
  { unfold alpha_stage. destruct (_ =? 4); [|exact Hs1].
    apply samples_map; [apply premultiply_bytes|exact Hs1]. }
  destruct (opengl_stage_shape gl (alpha_stage (to_8bit m))) as (Hc3 & Hd3 & Hu3).
  assert (Hs3 : samples_within 255
                  (cv.data (opengl_stage gl (alpha_stage (to_8bit m))))).
  { unfold opengl_stage. destruct gl; [|exact Hs2].
    unfold cv.flip, cv.with_data, cv.flip_rows. cbn [cv.data Z.eqb].
    now apply Forall_rev. }
  unfold colorize.
  set (pre := opengl_stage gl (alpha_stage (to_8bit m))) in *.
  assert (Hcp : cv.channels pre = cv.channels m) by congruence.
  assert (Hdp : cv.depth pre = cv.CV_8U) by congruence.
  assert (Hup : cv.uniform pre) by auto.
  assert (Hgray : cv.uniform (gray_stage pre) /\
                  samples_within 255 (cv.data (gray_stage pre)) /\
                  cv.depth (gray_stage pre) = cv.CV_8U /\
                  (cv.channels (gray_stage pre) = 3 \/ cv.channels (gray_stage pre) = 4)).
  { unfold gray_stage. destruct (Z.eqb_spec (cv.channels pre) 1) as [H1|H1].
    - repeat split; [now apply cvtColor_uniform|now apply cvtColor_bytes|exact Hdp|now right].
    - repeat split; try assumption. rewrite Hcp in *. lia. }
  destruct Hgray as (Hug & Hsg & Hdg & Hcg).
  generalize dependent (gray_stage pre). intros g Hug Hsg Hdg Hcg.
  unfold backend_stage.
  repeat match goal with
         | |- context [if ?b then _ else _] => destruct b
         end;
    first [ split; assumption
          | split; [apply cvtColor_uniform; assumption|apply cvtColor_bytes; assumption] ].
Qed.

(** X13. If every pixel of the resized image has as many samples as the
    image has channels (one, three or four) and, for an 8-bit image, every
    sample is a byte, then the same holds of the final buffer: every pixel
    has as many samples as the final channel count and every sample lies in
    0..255.  Samples of a 16-bit image need no bound: the conversion
    saturates. *)
Theorem final_buffer_is_well_formed :
  forall (E : Env) (o : OpencvImage),
    cv.uniform (image (state_of (resize_image E o))) ->
    cv.channels (image (state_of (resize_image E o))) = 1 \/
    cv.channels (image (state_of (resize_image E o))) = 3 \/
    cv.channels (image (state_of (resize_image E o))) = 4 ->
    (cv.depth (image (state_of (resize_image E o))) = cv.CV_8U ->
     samples_within 255 (cv.data (image (state_of (resize_image E o))))) ->
    cv.uniform (image (state_of (process_image E o))) /\
    samples_within 255 (cv.data (image (state_of (process_image E o)))).
Proof.
  intros E o Hu Hc Hs. rewrite process_image_image. now apply colorize_bytes.
Qed.

Lemma final_buffer_is_well_formed_witness :
  cv.uniform (image (state_of (process_image Sample.bright_env Sample.bright_object))) /\
  samples_within 255
    (cv.data (image (state_of (process_image Sample.bright_env Sample.bright_object)))).
Proof.
  apply final_buffer_is_well_formed.
  - repeat constructor.
  - left. reflexivity.
  - discriminate.
Defined.

(** X14. When the image that enters the colour stages (the decoded image
    after orientation and resize) has 8-bit or 16-bit unsigned samples, the
    buffer of the constructed object is 8-bit, so its byte size is width x
    height x channels, one byte per sample, as long as that number fits
    [size_t]. *)
Theorem size_is_one_byte_per_sample :
  forall (E : Env) (new_dims : Dimensions) (filename : string) (cached : bool)
         (o : OpencvImage),
    fst (OpencvImage_new E new_dims filename cached) = inr o ->
    cv.depth (resized_image E (state_of (rotate_image E (decoded E new_dims filename cached))))
      = cv.CV_8U \/
    cv.depth (resized_image E (state_of (rotate_image E (decoded E new_dims filename cached))))
      = cv.CV_16U ->
    0 <= width o * height o * channels o < 2 ^ 64 ->
    cv.depth (image o) = cv.CV_8U /\
    size o = width o * height o * channels o.
Proof.
  intros E new_dims filename cached o.
  destruct (cv.empty (imread E filename)) eqn:Hempty.
  { rewrite construction_empty by exact Hempty. discriminate. }
  rewrite construction_decoded by exact Hempty. cbv zeta.
  destruct (resize_rejected E _); cbn [fst]; [discriminate|].
  intros Ho Hd. injection Ho as <-. rewrite state_of_bind.
  set (o1 := state_of (rotate_image E (decoded E new_dims filename cached))) in *.
  destruct (process_image_run E o1) as [-> _].
  destruct (resize_image_run E o1) as (-> & _).
  set (gl := ENABLE_OPENGL E && use_opengl (flags o1)).
  assert (H8 : cv.depth (colorize gl (output (flags o1)) (resized_image E o1)) = cv.CV_8U).
  { now apply colorize_byte_depth. }
  cbv zeta. unfold size, width, height, channels. cbn [_size image set_size set_image].
  unfold cv.total, cv.elemSize, size_t. fold gl. rewrite H8. cbn [cv.elemSize1_of].
  match goal with
  | |- context [cv.cols ?m] => generalize (cv.cols m), (cv.rows m), (cv.channels m)
  end.
  intros c r ch Hfit. split; [reflexivity|].
  replace (r * c * (ch * 1)) with (c * r * ch) by ring.
  now apply Z.mod_small.
Qed.

Lemma size_is_one_byte_per_sample_witness :
  size (state_of ((rotate_image Sample.dim_env ;; process_image Sample.dim_env)
                    (decoded Sample.dim_env Sample.box "a.png" false))) = 4.
Proof.
  rewrite (proj2 (size_is_one_byte_per_sample
                    Sample.dim_env Sample.box "a.png" false _ eq_refl
                    (or_intror eq_refl)
                    ltac:(vm_compute; split; [discriminate|reflexivity]))).
  reflexivity.
Defined.

(** ** What a construction leaves alone *)

Lemma half_cells_nonnegative (w fw : Z) :
  0 <= w -> 0 < fw -> 0 <= Qfloor (inject_Z w / inject_Z fw / (2 # 1)).
Proof.
  intros Hw Hfw. rewrite half_cells_floor by assumption.
  apply Z.div_pos; lia.
Qed.

Lemma rotate_image_box (E : Env) (o : OpencvImage) :
  max_width (state_of (rotate_image E o)) = max_width o /\
  max_height (state_of (rotate_image E o)) = max_height o.
Proof.
  unfold rotate_image, bind, this, state_of. cbv beta iota zeta.
  destruct (read_exif_rotation E (path o)) as [value|]; [|now cbn].
  repeat match goal with
         | |- context [if ?b then _ else _] => destruct b
         end; now cbn.
Qed.

Lemma resize_image_box (E : Env) (o : OpencvImage) :
  max_width (state_of (resize_image E o)) = max_width o /\
  max_height (state_of (resize_image E o)) = max_height o.
Proof.
  unfold resize_image, bind, this, update, logger, emit, ret.
  cbv beta iota zeta.
  destruct (in_cache o); [now cbn|].
  destruct (get_new_sizes E _ _ _ _ _ _) as [nw nh].
  destruct ((nw <=? 0) && (nh <=? 0)).
  - destruct (needs_scaling (flags o)); [|now cbn].
    destruct (negb _ || negb _); [|now cbn].
    rewrite resize_image_helper_run. now cbn.
  - destruct (ocl_context E); rewrite resize_image_helper_run; now cbn.
Qed.

Lemma width_nonnegative (o : OpencvImage) : 0 <= width o /\ 0 <= height o.
Proof. unfold width, height, cv.cols, cv.rows. lia. Qed.

(** X15. A constructed object keeps the file name, the cache flag, the flags
    and the target box it was built with.  Of the Dimensions it was given,
    only the origin can change: with centring off it stays, with centring
    on (and positive cell sizes) it never moves right or down. *)
Theorem construction_only_moves_origin_left_and_up :
  forall (E : Env) (new_dims : Dimensions) (file : string) (cached : bool)
         (o : OpencvImage),
    fst (OpencvImage_new E new_dims file cached) = inr o ->
    0 < font_width (terminal new_dims) ->
    0 < font_height (terminal new_dims) ->
    filename o = file /\ in_cache o = cached /\
    flags o = Flags_instance E /\
    max_width o = max_wpixels new_dims /\ max_height o = max_hpixels new_dims /\
    max_wpixels (dimensions o) = max_wpixels new_dims /\
    max_hpixels (dimensions o) = max_hpixels new_dims /\
    scaler (dimensions o) = scaler new_dims /\
    terminal (dimensions o) = terminal new_dims /\
    (if origin_center (Flags_instance E)
     then x (dimensions o) <= x new_dims /\ y (dimensions o) <= y new_dims
     else x (dimensions o) = x new_dims /\ y (dimensions o) = y new_dims).
Proof.
  intros E new_dims file cached o.
  destruct (cv.empty (imread E file)) eqn:Hempty.
  { rewrite construction_empty by exact Hempty. discriminate. }
  rewrite construction_decoded by exact Hempty. cbv zeta.
  destruct (resize_rejected E _); cbn [fst]; [discriminate|].
  intros Ho Hfw Hfh. injection Ho as <-. rewrite state_of_bind.
  set (o0 := decoded E new_dims file cached).
  destruct (rotate_image_fields E o0) as (Hf1 & Hd1 & Hp1 & Hc1).
  destruct (rotate_image_box E o0) as (Hw1 & Hh1).
  set (o1 := state_of (rotate_image E o0)) in *.
  destruct (resize_image_run E o1) as (_ & _ & Hd2 & Hf2 & Hp2 & Hc2).
  destruct (resize_image_box E o1) as (Hw2 & Hh2).
  destruct (process_image_run E o1) as [-> _]. cbv zeta.
  set (o2 := state_of (resize_image E o1)) in *.
  unfold filename, dimensions.
  cbn [path in_cache flags max_width max_height dims set_size set_image set_dims].
  rewrite Hp2, Hp1, Hc2, Hc1, Hf2, Hf1, Hw2, Hw1, Hh2, Hh1.
  repeat (split; [reflexivity|]).
  unfold centered. rewrite Hf2, Hf1, Hd2, Hd1.
  cbn [flags dims o0 decoded].
  destruct (origin_center (Flags_instance E)); [|cbn; repeat split; reflexivity].
  destruct (width_nonnegative o2) as [Hw Hh].
  pose proof (half_cells_nonnegative (width o2) _ Hw Hfw).
  pose proof (half_cells_nonnegative (height o2) _ Hh Hfh).
  cbn [x y max_wpixels max_hpixels scaler terminal move_origin].
  repeat split; try reflexivity; lia.
Qed.

Lemma construction_only_moves_origin_left_and_up_witness :
  exists o : OpencvImage,
    fst (OpencvImage_new Sample.poster_env Sample.box "a.png" false) = inr o /\
    filename o = "a.png" /\
    x (dimensions o) <= 5 /\ y (dimensions o) <= 5.
Proof.
  eexists. split; [reflexivity|].
  destruct (construction_only_moves_origin_left_and_up
              Sample.poster_env Sample.box "a.png" false _ eq_refl
              ltac:(reflexivity) ltac:(reflexivity))
    as (Hn & _ & _ & _ & _ & _ & _ & _ & _ & Hx & Hy).
  split; [exact Hn|]. split; [exact Hx|exact Hy].
Defined.

(** ** The order of a run *)

Lemma resize_trace_steps (E : Env) (o : OpencvImage) :
  Forall (fun e => is_resize_step e = true) (resize_trace E o).
Proof.
  unfold resize_trace, cache_events.
  destruct (resize_request E o) as [[w h]|]; [|constructor].
  destruct (accelerated E o), (no_cache (flags o));
    try destruct (imwrite E _ _); cbn; repeat constructor.
Qed.

Lemma colorize_trace_steps (gl : bool) (out : string) (m : cv.Mat) :
  Forall (fun e => is_color_step e = true) (colorize_trace gl out m).
Proof.
  unfold colorize_trace. cbv zeta.
  repeat match goal with
         | |- context [if ?b then _ else _] => destruct b
         end; cbn; repeat constructor.
Qed.

(** X16. A construction that gets past the decoder runs in three phases, in
    this order: the flips and rotations of the orientation; then the resize
    step (resize, cache write, accelerator copies and their log entries);
    then the colour stages (depth conversion, premultiplication, OpenGL
    flip, colour conversions).  No call of one phase comes before a call of
    an earlier one. *)
Theorem construction_runs_in_three_phases :
  forall (E : Env) (new_dims : Dimensions) (file : string) (cached : bool),
    cv.empty (imread E file) = false ->
    exists orient resizing colours : list Event,
      snd (OpencvImage_new E new_dims file cached) =
        Imread file :: Log info "loading file {}" :: orient ++ resizing ++ colours /\
      Forall (fun e => is_geometry e = true) orient /\
      Forall (fun e => is_resize_step e = true) resizing /\
      Forall (fun e => is_color_step e = true) colours.
Proof.
  intros E new_dims file cached Hne.
  destruct (resize_rejected E (state_of (rotate_image E (decoded E new_dims file cached))))
    eqn:Hrej.
  { rewrite construction_decoded by assumption. cbv zeta. rewrite Hrej. cbn [snd].
    exists (trace_of (rotate_image E (decoded E new_dims file cached))),
           (resize_prelude E (state_of (rotate_image E (decoded E new_dims file cached)))),
           [].
    split; [now rewrite app_nil_r|].
    split; [apply rotate_image_trace|].
    split; [|constructor].
    unfold resize_prelude. destruct (accelerated E _); repeat constructor. }
  rewrite construction_succeeds by assumption. cbn [snd].
  set (o1 := state_of (rotate_image E (decoded E new_dims file cached))).
  destruct (process_image_run E o1) as [_ Htr]. cbv zeta in Htr.
  destruct (resize_image_run E o1) as (_ & Hrt & _).
  rewrite Htr, Hrt.
  exists (trace_of (rotate_image E (decoded E new_dims file cached))),
         (resize_trace E o1),
         (colorize_trace (ENABLE_OPENGL E && use_opengl (flags o1)) (output (flags o1))
                         (image (state_of (resize_image E o1)))).
  split; [reflexivity|].
  split; [apply rotate_image_trace|].
  split; [apply resize_trace_steps|apply colorize_trace_steps].
Qed.

Lemma construction_runs_in_three_phases_witness :
  exists orient resizing colours : list Event,
    snd (OpencvImage_new Sample.turned_env Sample.box "a.png" false) =
      Imread "a.png" :: Log info "loading file {}" :: orient ++ resizing ++ colours /\
    Forall (fun e => is_geometry e = true) orient /\
    Forall (fun e => is_color_step e = true) colours.
Proof.
  destruct (construction_runs_in_three_phases
              Sample.turned_env Sample.box "a.png" false eq_refl)
    as (a & b & c & Ht & Ha & _ & Hc).
  exists a, b, c. repeat split; assumption.
Defined.

(** ** The depth conversion as a function of the intensity *)

Lemma cvRound_256_nearest (v : Z) :
  Z.abs (256 * cv.cvRound (inject_Z v * (1 # 256)) - v) <= 128.
Proof.
  unfold cv.cvRound.
  unfold Qfloor, Qcompare, Qminus, Qplus, Qopp, Qmult, inject_Z. cbn [Qnum Qden].
  change (Z.pos (1 * 256)) with 256. change (Z.pos (1 * 256 * 1)) with 256.
  rewrite !Z.mul_1_r, Z.mul_1_l.
  pose proof (Z.div_mod v 256 ltac:(lia)) as Hdm.
  pose proof (Z.mod_pos_bound v 256 ltac:(lia)) as Hmod.
  set (q := v / 256) in *.
  destruct (Z.compare_spec ((v + - q * 256) * 2) 256) as [He|Hl|Hg];
    [destruct (Z.even q)|..]; lia.
Qed.

(** X17. The depth conversion of [process_image] keeps the order of
    intensities: a sample that is not smaller before the conversion is not
    smaller after it. *)
Theorem downscale_is_monotone :
  forall v v' : Z,
    v <= v' ->
    cv.convert_sample_8U (1 # 256) v <= cv.convert_sample_8U (1 # 256) v'.
Proof.
  intros v v' Hle. unfold cv.convert_sample_8U, cv.saturate_uchar.
  destruct (Z.eq_dec v v') as [->|Hne]; [lia|].
  pose proof (cvRound_256_nearest v) as Hk.
  pose proof (cvRound_256_nearest v') as Hk'.
  lia.
Qed.

Lemma downscale_is_monotone_witness :
  cv.convert_sample_8U (1 # 256) 200 <= cv.convert_sample_8U (1 # 256) 384.
Proof. apply downscale_is_monotone. lia. Defined.

(** X18. The depth conversion of [process_image] undoes a scaling of a byte
    by 256: the 16-bit intensity 256 * b, for a byte b, converts to b. *)
Theorem downscale_recovers_scaled_byte :
  forall b : Z,
    0 <= b <= 255 ->
    cv.convert_sample_8U (1 # 256) (256 * b) = b.
Proof.
  intros b Hb. unfold cv.convert_sample_8U, cv.saturate_uchar.
  pose proof (cvRound_256_nearest (256 * b)) as Hk. lia.
Qed.

Lemma downscale_recovers_scaled_byte_witness :
  cv.convert_sample_8U (1 # 256) (256 * 200) = 200.
Proof. apply downscale_recovers_scaled_byte. lia. Defined.
